(** * sktime excerpt: the aligner registry, the summary classifier and the
      alignment-engine contract.

    Three modules of definitions, then the theorems about each:
    - [Registry]: [NUMBA_ALIGNERS] of
      [sktime/dists_kernels/numba_aligners/_registry.py];
    - [Summary]: [SummaryClassifier] of
      [sktime/classification/feature_based/_summary_classifier.py], as a
      state-and-exception monad over a store of estimator objects;
    - [Dtw]: the alignment engine the registry refers to, whose
      implementation ([dtw/dtw_cost_matrix.py]) is not part of the excerpt
      and is taken from the specification. *)

From Stdlib Require Import Reals Lra QArith.
From stdpp Require Import gmap strings list.

Local Open Scope Z_scope.
Local Open Scope nat_scope.

(* ===================================================================== *)
(** ** Part 1. The aligner registry *)
(* ===================================================================== *)

Module Registry.

(** The two names [_registry.py] imports from [dtw.dtw_cost_matrix]. The
    registry stores references to these functions, it never calls them. *)
Inductive symbol : Type :=
| dtw_cost_matrix_alignment
| numba_dtw_cost_matrix_distance_factory.

(** Python values that occur in the registry: strings and function
    references. A Python tuple is the list of its components, so that its
    arity is a property to be checked and not a typing accident. *)
Inductive pyval : Type :=
| PyStr (s : string)
| PyFun (f : symbol).

Abbreviation pytuple := (list pyval).

Definition NUMBA_ALIGNERS : list pytuple :=
  [ [ PyStr "dtw cost matrix alignment";
      PyFun dtw_cost_matrix_alignment;
      PyFun numba_dtw_cost_matrix_distance_factory ] ].

(** Reading an entry the way a caller iterating the registry does:
    [name, engine, factory = entry]. Unpacking fails on any other shape. *)
Definition unpack (e : pytuple) : option (string * symbol * symbol) :=
  match e with
  | [PyStr name; PyFun engine; PyFun factory] => Some (name, engine, factory)
  | _ => None
  end.

Definition entry_name (e : pytuple) : option string :=
  match e with
  | PyStr name :: _ => Some name
  | _ => None
  end.

End Registry.

(* ===================================================================== *)
(** ** Part 2. SummaryClassifier *)
(* ===================================================================== *)

Module Summary.

(** *** Python exceptions the methods can raise *)

Inductive exn : Type :=
| AttributeError (type_name attr : string)
| IndexError
| KeyError
| ReferenceError. (* a location outside the store: no Python program
                     holds one, the statements below exclude it *)

Inductive outcome (A : Type) : Type :=
| Normal (a : A)
| Raised (e : exn).
Arguments Normal {A} a.
Arguments Raised {A} e.

(** Estimator objects live in a store and are referred to by location, as
    Python objects are referred to by identity. *)
Definition loc : Type := positive.

(** *** Collaborators

    Everything the classifier calls and the excerpt does not define:
    scikit-learn's estimators, the summary transformer, [_clone_estimator]
    and numpy's [shape]. They are an interface here. *)

Class Collaborators : Type := {
  XData : Type;                       (* the panel X *)
  Label : Type;                       (* one class label of y *)
  Label_eq_dec :: EqDecision Label;
  Label_countable :: Countable Label;
  Features : Type;                    (* the table a transformer returns *)
  Transformer : Type;                 (* a transformer object *)
  Model : Type;                       (* an estimator minus its [n_jobs] *)
  shape0 : XData -> nat;              (* [X.shape[0]] *)
}.

(** An estimator object. [est_n_jobs] is the state of its [n_jobs]
    attribute: [None] when the object has no such attribute, [Some None]
    when it has one that holds Python's [None], [Some (Some k)] when it
    holds the integer [k]. *)
Record estimator_obj `{Collaborators} : Type := EstimatorObj {
  est_n_jobs : option (option Z);
  est_model : Model;
}.

(** The attributes [BaseClassifier] keeps on the instance and these
    methods read. [BaseClassifier.fit] sets them before it calls [_fit]. *)
Record base_state `{Collaborators} : Type := BaseState {
  n_classes_ : nat;
  _class_dictionary : gmap Label nat;
  _threads_to_use : Z;
}.

Class Methods `{Collaborators} : Type := {
  (* [RandomForestClassifier(n_estimators=k)] *)
  RandomForestClassifier : nat -> estimator_obj;
  (* [_clone_estimator(base, random_state)]: the value of the new object *)
  clone_of : estimator_obj -> option Z -> estimator_obj;
  (* [est.fit(X_t, y)]: the object after the in-place fit *)
  est_fit : estimator_obj -> Features -> list Label -> estimator_obj;
  (* [est.predict(X_t)] *)
  est_predict : estimator_obj -> Features -> list Label;
  (* [getattr(est, "predict_proba", None)] when it is callable *)
  est_predict_proba : estimator_obj -> option (Features -> list (list Q));
  (* [t.fit_transform(X, y)]: the transformer afterwards and the table *)
  fit_transform : Transformer -> XData -> list Label -> Transformer * Features;
  (* [t.transform(X)] *)
  transform : Transformer -> XData -> Features;
  (* what [BaseClassifier.__init__] leaves in its own attributes *)
  BaseClassifier_init : base_state;
}.

Section Model.
Context `{Methods}.

Record classifier : Type := Classifier {
  summary_functions : list string;
  summary_quantiles : list Q;
  estimator : option loc;          (* [None] is Python's [None] *)
  n_jobs : Z;
  random_state : option Z;
  _transformer : option loc;       (* into [transformers] *)
  _estimator : option loc;         (* into [estimators] *)
  base : base_state;
}.

(** The instance [self] and the objects it can reach. *)
Record world : Type := World {
  estimators : gmap loc estimator_obj;
  transformers : gmap loc Transformer;
  self : classifier;
}.

(** *** The monad: state that survives a raise *)

Definition M (A : Type) : Type := world -> outcome A * world.

#[export] Instance M_ret : MRet M := fun A a w => (Normal a, w).
#[export] Instance M_bind : MBind M := fun A B f m w =>
  match m w with
  | (Normal a, w') => f a w'
  | (Raised e, w') => (Raised e, w')
  end.

Definition raise {A} (e : exn) : M A := fun w => (Raised e, w).
Definition get_self : M classifier := fun w => (Normal (self w), w).

(** [self._estimator = l], the one attribute assignment on [self] that
    the three methods contain. *)
Definition set_self__estimator (l : loc) : M unit := fun w =>
  let c := self w in
  (Normal tt,
   World (estimators w) (transformers w)
     (Classifier (summary_functions c) (summary_quantiles c) (estimator c)
        (n_jobs c) (random_state c) (_transformer c) (Some l) (base c))).

(** Object creation: a location the store does not hold yet. *)
Definition new (o : estimator_obj) : M loc := fun w =>
  let l := fresh (dom (estimators w)) in
  (Normal l, World (<[l := o]> (estimators w)) (transformers w) (self w)).

Definition deref (l : loc) : M estimator_obj := fun w =>
  match estimators w !! l with
  | Some o => (Normal o, w)
  | None => (Raised ReferenceError, w)
  end.

Definition assign (l : loc) (o : estimator_obj) : M unit := fun w =>
  (Normal tt, World (<[l := o]> (estimators w)) (transformers w) (self w)).

Definition deref_t (l : loc) : M Transformer := fun w =>
  match transformers w !! l with
  | Some t => (Normal t, w)
  | None => (Raised ReferenceError, w)
  end.

Definition assign_t (l : loc) (t : Transformer) : M unit := fun w =>
  (Normal tt, World (estimators w) (<[l := t]> (transformers w)) (self w)).

(** [obj.attr] where [obj] may be [None]. *)
Definition attr_of {A} (obj : option A) (attr : string) : M A :=
  match obj with
  | Some a => mret a
  | None => raise (AttributeError "NoneType" attr)
  end.

(** [est.n_jobs = k] *)
Definition with_n_jobs (o : estimator_obj) (k : Z) : estimator_obj :=
  EstimatorObj _ (Some (Some k)) (est_model o).

(** [getattr(est, "n_jobs", None)] *)
Definition getattr_n_jobs (o : estimator_obj) : option Z :=
  match est_n_jobs o with
  | Some v => v
  | None => None
  end.

(** *** [__init__] *)

Definition default_summary_functions : list string :=
  ["mean"; "std"; "min"; "max"].
Definition default_summary_quantiles : list Q :=
  [(1 # 4)%Q; (1 # 2)%Q; (3 # 4)%Q].

Definition __init__ (summary_functions : list string)
    (summary_quantiles : list Q) (estimator : option loc) (n_jobs : Z)
    (random_state : option Z) : classifier :=
  Classifier summary_functions summary_quantiles estimator n_jobs
    random_state None None BaseClassifier_init.

(** *** [_fit]

    The lines that would build the transformer are a comment in the source
    (lines 88 to 91), so nothing here assigns [self._transformer]. *)

Definition _fit (X : XData) (y : list Label) : M unit :=
  me ← get_self;
  (* self._estimator = _clone_estimator(
         RandomForestClassifier(n_estimators=200)
         if self.estimator is None else self.estimator,
         self.random_state) *)
  src ← match estimator me with
        | None => new (RandomForestClassifier 200)
        | Some l => mret l
        end;
  o ← deref src;
  c ← new (clone_of o (random_state me));
  set_self__estimator c;;
  (* m = getattr(self._estimator, "n_jobs", None)
     if m is not None: self._estimator.n_jobs = self._threads_to_use *)
  e ← deref c;
  match getattr_n_jobs e with
  | Some _ => assign c (with_n_jobs e (_threads_to_use (base me)))
  | None => mret tt
  end;;
  (* X_t = self._transformer.fit_transform(X, y) *)
  me ← get_self;
  tl ← attr_of (_transformer me) "fit_transform";
  t ← deref_t tl;
  assign_t tl (fit_transform t X y).1;;
  (* self._estimator.fit(X_t, y) *)
  e ← deref c;
  assign c (est_fit e (fit_transform t X y).2 y).

(** *** [_predict]

    [self._estimator.predict] is looked up before the argument
    [self._transformer.transform(X)] is evaluated. *)

Definition _predict (X : XData) : M (list Label) :=
  me ← get_self;
  c ← attr_of (_estimator me) "predict";
  tl ← attr_of (_transformer me) "transform";
  t ← deref_t tl;
  e ← deref c;
  mret (est_predict e (transform t X)).

(** *** [_predict_proba] *)

(** [np.zeros((n, k))] *)
Definition zeros (n k : nat) : list (list Q) := replicate n (replicate k 0%Q).

(** [preds[i]] *)
Definition getitem {A} (l : list A) (i : nat) : M A :=
  match l !! i with
  | Some a => mret a
  | None => raise IndexError
  end.

(** [d[k]] on a dict *)
Definition dict_getitem (d : gmap Label nat) (k : Label) : M nat :=
  match d !! k with
  | Some v => mret v
  | None => raise KeyError
  end.

(** [dists[i, j] = v] *)
Definition setitem2 (dists : list (list Q)) (i j : nat) (v : Q)
  : M (list (list Q)) :=
  match dists !! i with
  | Some row =>
      if decide (j < length row) then mret (<[i := <[j := v]> row]> dists)
      else raise IndexError
  | None => raise IndexError
  end.

(** [for i in idx: acc = body(i, acc)] *)
Fixpoint for_each {S} (idx : list nat) (body : nat -> S -> M S) (acc : S)
  : M S :=
  match idx with
  | [] => mret acc
  | i :: idx' => acc' ← body i acc; for_each idx' body acc'
  end.

(** The row [_predict_proba] builds for class index [c] out of [k]. *)
Definition one_hot (k c : nat) : list Q := <[c := 1%Q]> (replicate k 0%Q).

(** [getattr(self._estimator, "predict_proba", None)] followed by
    [callable]: on [None] the default is returned, nothing is raised. *)
Definition getattr_predict_proba (c : option loc)
  : M (option (Features -> list (list Q))) :=
  match c with
  | None => mret None
  | Some l => e ← deref l; mret (est_predict_proba e)
  end.

Definition _predict_proba (X : XData) : M (list (list Q)) :=
  me ← get_self;
  m ← getattr_predict_proba (_estimator me);
  match m with
  | Some predict_proba =>
      tl ← attr_of (_transformer me) "transform";
      t ← deref_t tl;
      mret (predict_proba (transform t X))
  | None =>
      let dists := zeros (shape0 X) (n_classes_ (base me)) in
      c ← attr_of (_estimator me) "predict";
      tl ← attr_of (_transformer me) "transform";
      t ← deref_t tl;
      e ← deref c;
      let preds := est_predict e (transform t X) in
      for_each (seq 0 (shape0 X))
        (fun i dists =>
           p ← getitem preds i;
           k ← dict_getitem (_class_dictionary (base me)) p;
           setitem2 dists i k 1%Q)
        dists
  end.

(** *** Vocabulary of the statements *)

(** The object denoted by
    [RandomForestClassifier(n_estimators=200) if self.estimator is None
    else self.estimator]; [None] only for a location outside the store. *)
Definition source_estimator (w : world) : option estimator_obj :=
  match estimator (self w) with
  | None => Some (RandomForestClassifier 200)
  | Some l => estimators w !! l
  end.

(** The transformer object [self._transformer] refers to, if any. *)
Definition current_transformer (w : world) : option Transformer :=
  _transformer (self w) ≫= fun tl => transformers w !! tl.

(** The estimator object [self._estimator] refers to, if any. *)
Definition current_estimator (w : world) : option estimator_obj :=
  _estimator (self w) ≫= fun c => estimators w !! c.

(** What happens to an instance between two calls of its methods: the
    caller and [BaseClassifier] may change every object in the stores and
    the base attributes. *)
Definition with_base (c : classifier) (b : base_state) : classifier :=
  Classifier (summary_functions c) (summary_quantiles c) (estimator c)
    (n_jobs c) (random_state c) (_transformer c) (_estimator c) b.

(** The life of one instance: built by [__init__], then any sequence of
    calls of the three methods, each ending normally or by a raise. *)
Inductive reachable : world -> Prop :=
| reach_init sf sq e nj rs es ts :
    reachable (World es ts (__init__ sf sq e nj rs))
| reach_fit w X y :
    reachable w -> reachable (_fit X y w).2
| reach_predict w X :
    reachable w -> reachable (_predict X w).2
| reach_predict_proba w X :
    reachable w -> reachable (_predict_proba X w).2
| reach_outside w es ts b :
    reachable w -> reachable (World es ts (with_base (self w) b)).

End Model.

(** *** A small concrete world, to run the methods on

    Panels are lists of series lengths, labels are naturals, a feature
    table is the list of those lengths, and an estimator predicts the
    label stored in its model for every row. *)

#[local] Instance toy_types : Collaborators := {|
  XData := list nat;
  Label := nat;
  Features := list nat;
  Transformer := nat;
  Model := nat;
  shape0 := length;
|}.

#[local] Instance toy_methods : Methods := {|
  RandomForestClassifier := fun k => EstimatorObj toy_types (Some None) k;
  clone_of := fun o _ => o;
  est_fit := fun o _ y => EstimatorObj toy_types (est_n_jobs o) (List.hd 0 y);
  est_predict := fun o X_t => map (fun _ => est_model o) X_t;
  est_predict_proba := fun _ => None;
  fit_transform := fun t X _ => (S t, X);
  transform := fun _ X => X;
  BaseClassifier_init := BaseState toy_types 0 ∅ 1%Z;
|}.

(** An estimator with a thread setting, as the caller would pass it. *)
Definition toy_threaded : estimator_obj := EstimatorObj toy_types (Some (Some 4%Z)) 7.

Definition toy_world : world :=
  World {[ 1%positive := toy_threaded ]} ∅
    (with_base
       (__init__ default_summary_functions default_summary_quantiles
          (Some 1%positive) 1%Z None)
       (BaseState toy_types 2 {[ 0 := 0; 7 := 1 ]} 8%Z)).

(** An instance built with every default, in an empty store. *)
Definition toy_default_world : world :=
  World ∅ ∅
    (__init__ default_summary_functions default_summary_quantiles None 1%Z None).

End Summary.

(* ===================================================================== *)
(** ** Part 3. The alignment engine *)
(* ===================================================================== *)

Module Dtw.

Local Open Scope R_scope.

(** The engine, [dtw_cost_matrix_alignment], is imported by the registry
    from [dtw/dtw_cost_matrix.py], a file the excerpt does not contain.
    Every definition of this part follows sections 3, 4.1 and 7 of the
    specification instead. *)

(** Modelled from the spec: the observations of
    [dtw_cost_matrix_alignment], vectors of D reals. *)
Abbreviation vec := (list R).

(** Modelled from the spec: the Sequence of section 3, the input of
    [dtw_cost_matrix_alignment]. *)
Abbreviation Sequence := (list (list R)).

(** Modelled from the spec: a cost of [dtw_cost_matrix_alignment], a real
    or +infinity. *)
Inductive ereal : Type :=
| Fin (r : R)
| PInf.

(** Modelled from the spec: the CostMatrix of section 3, built by
    [dtw_cost_matrix_alignment]. *)
Abbreviation CostMatrix := (list (list ereal)).

(** Modelled from the spec: the WarpingPath of section 3, returned by
    [dtw_cost_matrix_alignment]. *)
Abbreviation WarpingPath := (list (nat * nat)).

(** Modelled from the spec: the failures of [dtw_cost_matrix_alignment]
    (section 7). *)
Inductive error : Type :=
| InfeasibleAlignment
| InvalidParameters.

(** Modelled from the spec: the triple [dtw_cost_matrix_alignment]
    returns. *)
Record alignment : Type := Alignment {
  total_cost : R;
  path : WarpingPath;
  matrix : CostMatrix;
}.

(** Modelled from the spec: the sum in the recurrence of
    [dtw_cost_matrix_alignment], a pointwise cost plus a cell. *)
Definition eadd (c : R) (x : ereal) : ereal :=
  match x with
  | Fin r => Fin (c + r)
  | PInf => PInf
  end.

(** Modelled from the spec: the comparison of two cells of
    [dtw_cost_matrix_alignment]; +infinity is the largest. *)
Definition ele_b (x y : ereal) : bool :=
  match x, y with
  | _, PInf => true
  | PInf, Fin _ => false
  | Fin a, Fin b => if Rle_dec a b then true else false
  end.

(** Modelled from the spec: the smaller of two cells of
    [dtw_cost_matrix_alignment]. *)
Definition emin (x y : ereal) : ereal := if ele_b x y then x else y.

(** Modelled from the spec: the minimum in step 3 of
    [dtw_cost_matrix_alignment],
    [min(matrix[i-1][j], matrix[i][j-1], matrix[i-1][j-1])]. *)
Definition emin3 (up left diag : ereal) : ereal := emin up (emin left diag).

(** Modelled from the spec: the band of step 2 of
    [dtw_cost_matrix_alignment]; a cell (i, j) is eligible when there is
    no window or |i - j| is within it. *)
Definition in_band (window : option Z) (i j : nat) : bool :=
  match window with
  | None => true
  | Some w => (Z.abs (Z.of_nat i - Z.of_nat j) <=? w)%Z
  end.

Section Fill.
Variable pointwise_cost : vec -> vec -> R.
Variable window : option Z.

(** Modelled from the spec: steps 2 and 3 of
    [dtw_cost_matrix_alignment] for the cells (i, j), (i, j+1), ... of
    row i. [ups] is the previous row from column j on, [diag] the cell
    (i-1, j-1) and [left] the cell (i, j-1). *)
Fixpoint fill_cells (i j : nat) (a : vec) (bs : Sequence)
    (ups : list ereal) (diag left : ereal) : list ereal :=
  match bs, ups with
  | b :: bs', up :: ups' =>
      let v := if in_band window i j
               then eadd (pointwise_cost a b) (emin3 up left diag)
               else PInf in
      v :: fill_cells i (S j) a bs' ups' up v
  | _, _ => []
  end.

(** Modelled from the spec: row i >= 1 of the matrix of
    [dtw_cost_matrix_alignment] from row i-1; column 0 is +infinity. *)
Definition fill_row (i : nat) (a : vec) (B : Sequence) (prev : list ereal)
  : list ereal :=
  match prev with
  | d0 :: ups => PInf :: fill_cells i 1 a B ups d0 PInf
  | [] => []
  end.

(** Modelled from the spec: rows i, i+1, ... of the matrix of
    [dtw_cost_matrix_alignment], one per remaining element of A. *)
Fixpoint fill_rows (i : nat) (A B : Sequence) (prev : list ereal)
  : CostMatrix :=
  match A with
  | [] => []
  | a :: A' =>
      let cur := fill_row i a B prev in
      cur :: fill_rows (S i) A' B cur
  end.

(** Modelled from the spec: step 1 of [dtw_cost_matrix_alignment], row 0
    is 0 followed by +infinity, then the rows of the recurrence. *)
Definition cost_matrix (A B : Sequence) : CostMatrix :=
  let row0 := Fin 0 :: replicate (length B) PInf in
  row0 :: fill_rows 1 A B row0.

End Fill.

(** Modelled from the spec: reading a cell of the matrix of
    [dtw_cost_matrix_alignment]. *)
Definition cell (M : CostMatrix) (i j : nat) : ereal :=
  match M !! i with
  | Some row => default PInf (row !! j)
  | None => PInf
  end.

(** Modelled from the spec: the three predecessors of a cell of
    [dtw_cost_matrix_alignment]. *)
Inductive move : Type := Diag | Up | Left.

(** Modelled from the spec: the tie-break of
    [dtw_cost_matrix_alignment], diagonal first, then up, then left. *)
Definition choose (diag up left : ereal) : move :=
  if ele_b diag up && ele_b diag left then Diag
  else if ele_b up left then Up
  else Left.

(** Modelled from the spec: step 5 of [dtw_cost_matrix_alignment], the
    walk from matrix cell (i, j) back to the origin; cell (i, j) stands
    for the index pair (i-1, j-1), and the pairs are collected in
    increasing order. *)
Fixpoint backtrack (M : CostMatrix) (i : nat) : nat -> WarpingPath -> WarpingPath :=
  fix row (j : nat) (acc : WarpingPath) : WarpingPath :=
    match i, j with
    | S i', S j' =>
        let acc' := (i', j') :: acc in
        match choose (cell M i' j') (cell M i' j) (cell M i j') with
        | Diag => backtrack M i' j' acc'
        | Up => backtrack M i' j acc'
        | Left => row j' acc'
        end
    | _, _ => acc
    end.

(** Modelled from the spec: the first eager check of
    [dtw_cost_matrix_alignment] (section 7), a negative window. *)
Definition negative_window (window : option Z) : bool :=
  match window with
  | Some w => (w <? 0)%Z
  | None => false
  end.

(** Modelled from the spec: the second eager check of
    [dtw_cost_matrix_alignment] (section 7), all observations of the two
    sequences have the dimensionality of the first one. *)
Definition same_dimension (A B : Sequence) : bool :=
  match A ++ B with
  | [] => true
  | v0 :: rest => forallb (fun v => Nat.eqb (length v) (length v0)) rest
  end.

(** Modelled from the spec: [align] of section 4.1, the contract of
    [dtw_cost_matrix_alignment]. The step pattern is the fixed
    recurrence, so it is no argument. *)
Definition align (A B : Sequence) (pointwise_cost : option (vec -> vec -> R))
    (window : option Z) : error + alignment :=
  match pointwise_cost with
  | None => inl InvalidParameters
  | Some cost =>
      if negative_window window || negb (same_dimension A B)
      then inl InvalidParameters
      else
        let M := cost_matrix cost window A B in
        match cell M (length A) (length B) with
        | PInf => inl InfeasibleAlignment
        | Fin c => inr (Alignment c (backtrack M (length A) (length B) []) M)
        end
  end.

(** *** Vocabulary of the statements *)

(** The order on costs. *)
Definition ele (x y : ereal) : Prop :=
  match x, y with
  | _, PInf => True
  | PInf, Fin _ => False
  | Fin a, Fin b => a <= b
  end.

(** The diagonal path (0,0), (1,1), ..., (n-1,n-1). *)
Definition diagonal (n : nat) : WarpingPath := map (fun k => (k, k)) (seq 0 n).

(** [wider win1 win2]: every cell eligible under [win2] is eligible under
    [win1]. *)
Definition wider (win1 win2 : option Z) : Prop :=
  forall i j, in_band win2 i j = true -> in_band win1 i j = true.

(** Modelled from the spec: the typical pointwise cost of section 4.1
    (supplied by the caller of [dtw_cost_matrix_alignment]), the squared
    difference summed across channels. *)
Definition squared_difference (u v : vec) : R :=
  fold_right Rplus 0 (zip_with (fun x y => (x - y) * (x - y)) u v).

(** A cost that is not negative; +infinity counts. *)
Definition nonneg (x : ereal) : Prop := ele (Fin 0) x.

(** Modelled from the spec: [matrix[n][m]] of step 4 of
    [dtw_cost_matrix_alignment], before the feasibility test. *)
Definition corner_cost (cost : vec -> vec -> R) (window : option Z)
    (A B : Sequence) : ereal :=
  cell (cost_matrix cost window A B) (length A) (length B).

End Dtw.

(* ===================================================================== *)
(** ** Theorems: the registry *)
(* ===================================================================== *)

Section RegistryFacts.
Import Registry.

(** C3. The registry has an entry named "dtw cost matrix alignment"; it has
    three components: the name, then the alignment engine, then the
    distance factory. *)
Theorem registry_has_dtw_entry :
  exists e : pytuple,
    e ∈ NUMBA_ALIGNERS
    /\ length e = 3
    /\ e !! 0 = Some (PyStr "dtw cost matrix alignment")
    /\ e !! 1 = Some (PyFun dtw_cost_matrix_alignment)
    /\ e !! 2 = Some (PyFun numba_dtw_cost_matrix_distance_factory)
    /\ unpack e = Some ("dtw cost matrix alignment",
                        dtw_cost_matrix_alignment,
                        numba_dtw_cost_matrix_distance_factory).
Proof.
  eexists. split; [apply list_elem_of_here|]. repeat split.
Qed.

(** C5. Every entry of the registry is a three-tuple that starts with a
    name, and no two entries carry the same name (strings compared
    character by character, so case matters). *)
Theorem registry_entries_are_named_triples :
  Forall (fun e : pytuple => length e = 3 /\ is_Some (unpack e)) NUMBA_ALIGNERS
  /\ NoDup (omap entry_name NUMBA_ALIGNERS)
  /\ length (omap entry_name NUMBA_ALIGNERS) = length NUMBA_ALIGNERS.
Proof.
  split; [|split].
  - repeat constructor. by eexists.
  - cbn. apply NoDup_singleton.
  - reflexivity.
Qed.

End RegistryFacts.

(* ===================================================================== *)
(** ** Theorems: SummaryClassifier *)
(* ===================================================================== *)

Section SummaryFacts.
Import Summary.
Context `{Methods}.

Ltac unfold_monad :=
  unfold mbind, M_bind, mret, M_ret, get_self, set_self__estimator, new,
    deref, assign, deref_t, assign_t, attr_of, raise,
    getattr_predict_proba in *.

Ltac run :=
  repeat first
    [ progress cbn -[fresh] in *
    | progress unfold_monad
    | rewrite lookup_insert_eq
    | rewrite insert_insert_eq ].

(** [_fit] in closed form: the outcome and the world it leaves, whenever
    the conditional expression denotes an object. *)
Lemma fit_run (w : world) (X : XData) (y : list Label) (src : estimator_obj) :
  source_estimator w = Some src ->
  let es1 := match estimator (self w) with
             | None => <[fresh (dom (estimators w)) := RandomForestClassifier 200]>
                         (estimators w)
             | Some _ => estimators w
             end in
  let c := fresh (dom es1) in
  let cl := clone_of src (random_state (self w)) in
  let cl' := match getattr_n_jobs cl with
             | Some _ => with_n_jobs cl (_threads_to_use (base (self w)))
             | None => cl
             end in
  let me := self w in
  let me' := Classifier (summary_functions me) (summary_quantiles me)
               (estimator me) (n_jobs me) (random_state me)
               (_transformer me) (Some c) (base me) in
  _fit X y w =
    match _transformer me with
    | None => (Raised (AttributeError "NoneType" "fit_transform"),
               World (<[c := cl']> es1) (transformers w) me')
    | Some tl =>
        match transformers w !! tl with
        | None => (Raised ReferenceError,
                   World (<[c := cl']> es1) (transformers w) me')
        | Some t =>
            (Normal tt,
             World (<[c := est_fit cl' (fit_transform t X y).2 y]> es1)
               (<[tl := (fit_transform t X y).1]> (transformers w)) me')
        end
    end.
Proof.
  destruct w as [es ts [sf sq e nj rs tr est b]].
  unfold source_estimator, _fit. cbn -[fresh]. intros Hsrc.
  destruct e as [l|]; run.
  - rewrite Hsrc. run. destruct (getattr_n_jobs (clone_of src rs)); run;
      destruct tr as [tl|]; run; try done; destruct (ts !! tl); run; done.
  - injection Hsrc as <-. destruct (getattr_n_jobs _); run;
      destruct tr as [tl|]; run; try done; destruct (ts !! tl); run; done.
Qed.

(** With a location outside the store nothing happens at all. *)
Lemma fit_dangling (w : world) (X : XData) (y : list Label) :
  source_estimator w = None -> _fit X y w = (Raised ReferenceError, w).
Proof.
  destruct w as [es ts [sf sq e nj rs tr est b]].
  unfold source_estimator, _fit. cbn. intros Hsrc.
  destruct e as [l|]; [|done]. run. by rewrite Hsrc.
Qed.

(** No method assigns [self._transformer]. *)
Lemma fit_keeps_transformer_field (w : world) (X : XData) (y : list Label) :
  _transformer (self (_fit X y w).2) = _transformer (self w).
Proof.
  destruct (source_estimator w) as [src|] eqn:Hsrc.
  - rewrite (fit_run w X y src Hsrc).
    destruct (_transformer (self w)) as [tl|] eqn:Htl; [|done].
    by destruct (transformers w !! tl).
  - by rewrite fit_dangling.
Qed.

Lemma predict_keeps_world (w : world) (X : XData) : (_predict X w).2 = w.
Proof.
  destruct w as [es ts [sf sq e nj rs tr est b]]. unfold _predict. run.
  destruct est as [c|]; run; [|done].
  destruct tr as [tl|]; run; [|done].
  destruct (ts !! tl); run; [|done].
  by destruct (es !! c).
Qed.

Lemma for_each_keeps_world {S} (idx : list nat) (body : nat -> S -> M S) :
  (forall i s w, (body i s w).2 = w) ->
  forall s w, (for_each idx body s w).2 = w.
Proof.
  intros Hbody. induction idx as [|i idx IH]; intros s w; [done|].
  cbn. unfold mbind, M_bind. specialize (Hbody i s w).
  destruct (body i s w) as [[s'|e] w']; cbn in *; subst; [apply IH|done].
Qed.

Lemma predict_proba_keeps_world (w : world) (X : XData) :
  (_predict_proba X w).2 = w.
Proof.
  destruct w as [es ts [sf sq e nj rs tr est b]]. unfold _predict_proba. run.
  assert (Hloop : forall preds dists w,
    (for_each (seq 0 (shape0 X))
       (fun i dists =>
          p ← getitem preds i;
          k ← dict_getitem (_class_dictionary b) p;
          setitem2 dists i k 1%Q) dists w).2 = w).
  { intros preds dists w. apply for_each_keeps_world. clear. intros i s w.
    unfold getitem, dict_getitem, setitem2. run.
    destruct (preds !! i); run; [|done].
    destruct (_class_dictionary b !! _); run; [|done].
    destruct (s !! i); run; [|done]. by case_decide. }
  destruct est as [c|]; run; [|done].
  destruct (es !! c) as [eo|] eqn:Hc; run; [|done].
  destruct (est_predict_proba eo); run.
  - destruct tr as [tl|]; run; [|done]. by destruct (ts !! tl).
  - destruct tr as [tl|]; run; [|done]. destruct (ts !! tl); run; [|done].
    rewrite Hc. apply Hloop.
Qed.

Lemma reachable_transformer_None (w : world) :
  reachable w -> _transformer (self w) = None.
Proof.
  induction 1 as [| w X y _ IH | w X _ IH | w X _ IH | w es ts b _ IH].
  - done.
  - by rewrite fit_keeps_transformer_field.
  - by rewrite predict_keeps_world.
  - by rewrite predict_proba_keeps_world.
  - done.
Qed.

(** [_fit] assigns none of the constructor's attributes, and none of the
    base class. *)
Lemma fit_keeps_hyperparameters (w : world) (X : XData) (y : list Label) :
  let me' := self (_fit X y w).2 in
  summary_functions me' = summary_functions (self w)
  /\ summary_quantiles me' = summary_quantiles (self w)
  /\ estimator me' = estimator (self w)
  /\ n_jobs me' = n_jobs (self w)
  /\ random_state me' = random_state (self w)
  /\ base me' = base (self w).
Proof.
  destruct (source_estimator w) as [src|] eqn:Hsrc;
    [|by rewrite fit_dangling].
  rewrite (fit_run w X y src Hsrc).
  destruct (_transformer (self w)) as [tl|]; cbn -[fresh]; [|done].
  by destruct (transformers w !! tl).
Qed.

(** Estimator objects that exist when [_fit] starts are not written to. *)
Lemma fit_keeps_old_estimators (w : world) (X : XData) (y : list Label)
    (l : loc) (o : estimator_obj) :
  estimators w !! l = Some o -> estimators (_fit X y w).2 !! l = Some o.
Proof.
  intros Hl. destruct (source_estimator w) as [src|] eqn:Hsrc;
    [|by rewrite fit_dangling].
  rewrite (fit_run w X y src Hsrc).
  set (es1 := match estimator (self w) with
              | None => _ | Some _ => _ end).
  assert (Hes1 : es1 !! l = Some o).
  { subst es1. destruct (estimator (self w)); [done|].
    rewrite lookup_insert_ne; [done|]. intros <-.
    apply (is_fresh (dom (estimators w))), elem_of_dom. by eexists. }
  assert (Hne : fresh (dom es1) <> l).
  { intros <-. apply (is_fresh (dom es1)), elem_of_dom. by eexists. }
  destruct (_transformer (self w)) as [tl|]; cbn -[fresh];
    [destruct (transformers w !! tl); cbn -[fresh]|];
    by rewrite lookup_insert_ne.
Qed.

(** The location [_fit] stores in [self._estimator] is a new one. *)
Lemma fit_estimator_is_new (w : world) (X : XData) (y : list Label)
    (src : estimator_obj) :
  source_estimator w = Some src ->
  exists c, _estimator (self (_fit X y w).2) = Some c
            /\ estimators w !! c = None
            /\ estimator (self (_fit X y w).2) <> Some c.
Proof.
  intros Hsrc.
  destruct (fit_keeps_hyperparameters w X y) as (_ & _ & Hkeep & _).
  rewrite (fit_run w X y src Hsrc).
  set (es1 := match estimator (self w) with
              | None => _ | Some _ => _ end).
  assert (Hfresh : forall l, is_Some (estimators w !! l) -> fresh (dom es1) <> l).
  { intros l Hl <-. apply (is_fresh (dom es1)), elem_of_dom.
    subst es1. destruct (estimator (self w)); [done|].
    destruct Hl as [o Hl]. exists o. rewrite lookup_insert_ne; [done|].
    intros Heq. apply (is_fresh (dom (estimators w))), elem_of_dom.
    rewrite Heq. by eexists. }
  exists (fresh (dom es1)). split; [|split].
  - destruct (_transformer (self w)) as [tl|]; cbn -[fresh]; [|done].
    by destruct (transformers w !! tl).
  - destruct (estimators w !! fresh (dom es1)) eqn:E; [|done].
    exfalso. by eapply Hfresh.
  - rewrite (fit_run w X y src Hsrc) in Hkeep. fold es1 in Hkeep.
    intros Heq.
    assert (Hest : estimator (self w) = Some (fresh (dom es1))).
    { by rewrite <- Heq, Hkeep. }
    unfold source_estimator in Hsrc. rewrite Hest in Hsrc.
    eapply Hfresh; [|reflexivity]. by eexists.
Qed.

(** C1, evaluated on the code. An instance straight from [__init__] (no
    estimator given) cannot be trained: [_fit] clones the forest and then
    raises on [self._transformer.fit_transform], whatever X and y are, and
    [_predict] raises on [self._transformer.transform] afterwards. Neither
    the transformer nor the estimator's [fit] is ever reached. *)
Theorem fit_raises_AttributeError (sf : list string) (sq : list Q) (nj : Z)
    (rs : option Z) (es : gmap loc estimator_obj)
    (ts : gmap loc Transformer) (X X' : XData) (y : list Label) :
  let w0 := World es ts (__init__ sf sq None nj rs) in
  (_fit X y w0).1 = Raised (AttributeError "NoneType" "fit_transform")
  /\ (_predict X' (_fit X y w0).2).1
     = Raised (AttributeError "NoneType" "transform")
  /\ current_estimator (_fit X y w0).2
     = Some (match getattr_n_jobs (clone_of (RandomForestClassifier 200) rs) with
             | Some _ => with_n_jobs (clone_of (RandomForestClassifier 200) rs)
                           (_threads_to_use BaseClassifier_init)
             | None => clone_of (RandomForestClassifier 200) rs
             end).
Proof.
  intros w0.
  rewrite (fit_run w0 X y (RandomForestClassifier 200) eq_refl).
  cbn -[fresh]. split; [done|]. split.
  - unfold _predict. run. done.
  - unfold current_estimator. cbn -[fresh]. by rewrite lookup_insert_eq.
Qed.

(** *** What the three methods would do with a transformer in place

    The next lemmas run the methods in a world where [self._transformer]
    refers to a transformer, which no reachable world is. They show what
    the pipeline is written to do. *)

Lemma fit_with_transformer (w : world) (X : XData) (y : list Label)
    (src : estimator_obj) (t : Transformer) :
  source_estimator w = Some src ->
  current_transformer w = Some t ->
  let cl := clone_of src (random_state (self w)) in
  let prepared := match getattr_n_jobs cl with
                  | Some _ => with_n_jobs cl (_threads_to_use (base (self w)))
                  | None => cl
                  end in
  (_fit X y w).1 = Normal tt
  /\ current_transformer (_fit X y w).2 = Some (fit_transform t X y).1
  /\ current_estimator (_fit X y w).2
     = Some (est_fit prepared (fit_transform t X y).2 y).
Proof.
  intros Hsrc Ht cl prepared. rewrite (fit_run w X y src Hsrc).
  unfold current_transformer, current_estimator in *.
  destruct (_transformer (self w)) as [tl|]; [|done]. cbn in Ht.
  rewrite Ht. cbn -[fresh]. by rewrite !lookup_insert_eq.
Qed.

Lemma predict_with_transformer (w : world) (X : XData) (e : estimator_obj)
    (t : Transformer) :
  current_estimator w = Some e ->
  current_transformer w = Some t ->
  _predict X w = (Normal (est_predict e (transform t X)), w).
Proof.
  destruct w as [es ts [sf sq e0 nj rs tr est b]].
  unfold current_estimator, current_transformer, _predict. cbn.
  destruct est as [c|]; [|done]. destruct tr as [tl|]; [|done]. cbn.
  intros He Ht. run. rewrite Ht. run. by rewrite He.
Qed.

Lemma predict_proba_callable (w : world) (X : XData) (e : estimator_obj)
    (t : Transformer) (predict_proba : Features -> list (list Q)) :
  current_estimator w = Some e ->
  current_transformer w = Some t ->
  est_predict_proba e = Some predict_proba ->
  _predict_proba X w = (Normal (predict_proba (transform t X)), w).
Proof.
  destruct w as [es ts [sf sq e0 nj rs tr est b]].
  unfold current_estimator, current_transformer, _predict_proba. cbn.
  destruct est as [c|]; [|done]. destruct tr as [tl|]; [|done]. cbn.
  intros He Ht Hpp. run. rewrite He. run. rewrite Hpp. run. by rewrite Ht.
Qed.

(** The loop of [_predict_proba], from row [s] on. *)
Lemma one_hot_loop (d : gmap Label nat) (k : nat) (preds : list Label)
    (w : world) :
  forall (len s : nat) (done_rows : list (list Q)),
    length done_rows = s ->
    (forall i, s <= i < s + len ->
       exists p c, preds !! i = Some p /\ d !! p = Some c /\ c < k) ->
    for_each (seq s len)
      (fun i dists =>
         p ← getitem preds i;
         c ← dict_getitem d p;
         setitem2 dists i c 1%Q)
      (done_rows ++ replicate len (replicate k 0%Q)) w
    = (Normal (done_rows
               ++ map (fun i => one_hot k (default 0 (preds !! i ≫= (d !!.))))
                    (seq s len)), w).
Proof.
  induction len as [|len IH]; intros s done_rows Hlen Hin; [done|].
  destruct (Hin s ltac:(lia)) as (p & c & Hp & Hc & Hck).
  cbn [seq for_each replicate map].
  unfold mbind at 1, M_bind at 1.
  unfold getitem at 1, dict_getitem at 1, setitem2 at 1.
  rewrite Hp. run. rewrite Hc. run.
  rewrite lookup_app_r by lia.
  replace (s - length done_rows) with 0 by lia. cbn.
  rewrite length_replicate. rewrite decide_True by done. run.
  rewrite insert_app_r_alt by lia.
  replace (s - length done_rows) with 0 by lia. cbn.
  rewrite (cons_middle _ done_rows), app_assoc.
  rewrite (IH (S s) (done_rows ++ [<[c:=1%Q]> (replicate k 0%Q)])).
  - by rewrite <- app_assoc.
  - rewrite length_app. cbn. lia.
  - intros i Hi. apply Hin. lia.
Qed.

(** Without a callable [predict_proba], every row of the result is the
    one-hot row of the class index of the plain prediction. *)
Lemma predict_proba_one_hot (w : world) (X : XData) (e : estimator_obj)
    (t : Transformer) :
  current_estimator w = Some e ->
  current_transformer w = Some t ->
  est_predict_proba e = None ->
  (forall i, i < shape0 X ->
     exists p c, est_predict e (transform t X) !! i = Some p
                 /\ _class_dictionary (base (self w)) !! p = Some c
                 /\ c < n_classes_ (base (self w))) ->
  _predict_proba X w
  = (Normal (map (fun i => one_hot (n_classes_ (base (self w)))
                             (default 0 (est_predict e (transform t X) !! i
                                         ≫= (_class_dictionary (base (self w)) !!.))))
               (seq 0 (shape0 X))), w).
Proof.
  destruct w as [es ts [sf sq e0 nj rs tr est b]].
  unfold current_estimator, current_transformer, _predict_proba. cbn.
  destruct est as [c|]; [|done]. destruct tr as [tl|]; [|done]. cbn.
  intros He Ht Hpp Hpreds. run. rewrite He. run. rewrite Hpp. run.
  rewrite Ht. run. rewrite He. unfold zeros.
  apply (one_hot_loop (_class_dictionary b) (n_classes_ b)
           (est_predict e (transform t X)) _ (shape0 X) 0 []); [done|].
  intros i Hi. apply Hpreds. lia.
Qed.

Lemma one_hot_entries (k c : nat) :
  c < k ->
  length (one_hot k c) = k
  /\ one_hot k c !! c = Some 1%Q
  /\ (forall j, j < k -> j <> c -> one_hot k c !! j = Some 0%Q).
Proof.
  intros Hc. unfold one_hot. split; [|split].
  - by rewrite length_insert, length_replicate.
  - apply list_lookup_insert_eq. by rewrite length_replicate.
  - intros j Hj Hne. rewrite list_lookup_insert_ne by done.
    by apply lookup_replicate_2.
Qed.

(** After the attempt to train an instance straight from [__init__],
    [_predict_proba] raises on [self._transformer.transform] for every X,
    both when the estimator has a callable [predict_proba] and when it has
    none. Such an instance is not a fitted one: [_fit] did not return. *)
Theorem predict_proba_raises_AttributeError (sf : list string) (sq : list Q)
    (nj : Z) (rs : option Z) (es : gmap loc estimator_obj)
    (ts : gmap loc Transformer) (X X' : XData) (y : list Label) :
  let w1 := (_fit X y (World es ts (__init__ sf sq None nj rs))).2 in
  (_predict_proba X' w1).1 = Raised (AttributeError "NoneType" "transform").
Proof.
  intros w1. subst w1.
  rewrite (fit_run (World es ts (__init__ sf sq None nj rs)) X y
             (RandomForestClassifier 200) eq_refl).
  cbn -[fresh]. unfold _predict_proba. run.
  by destruct (est_predict_proba _).
Qed.

(** C4. When the clone answers [getattr(_, "n_jobs", None)] with a value,
    [_fit] overwrites that attribute of the clone with
    [self._threads_to_use] before anything else is done with it: the clone
    with the new [n_jobs] is what [fit] receives when the run gets that
    far, and what is left in [self._estimator] when it does not. Nothing
    else changes in the clone, in the instance's own [n_jobs] and thread
    count, or in any estimator that existed before. *)
Theorem fit_forwards_thread_hint (w : world) (X : XData) (y : list Label)
    (src : estimator_obj) (k : Z) :
  source_estimator w = Some src ->
  getattr_n_jobs (clone_of src (random_state (self w))) = Some k ->
  let w' := (_fit X y w).2 in
  let hinted := with_n_jobs (clone_of src (random_state (self w)))
                  (_threads_to_use (base (self w))) in
  current_estimator w'
    = Some (match current_transformer w with
            | None => hinted
            | Some t => est_fit hinted (fit_transform t X y).2 y
            end)
  /\ est_n_jobs hinted = Some (Some (_threads_to_use (base (self w))))
  /\ est_model hinted = est_model (clone_of src (random_state (self w)))
  /\ n_jobs (self w') = n_jobs (self w)
  /\ base (self w') = base (self w)
  /\ (forall l o, estimators w !! l = Some o -> estimators w' !! l = Some o).
Proof.
  intros Hsrc Hk w' hinted.
  repeat split; try done.
  - subst w'. rewrite (fit_run w X y src Hsrc). rewrite Hk. fold hinted.
    unfold current_estimator, current_transformer.
    destruct (_transformer (self w)) as [tl|]; cbn -[fresh];
      [destruct (transformers w !! tl); cbn -[fresh]|];
      by rewrite lookup_insert_eq.
  - apply fit_keeps_hyperparameters.
  - apply fit_keeps_hyperparameters.
  - intros l o. apply fit_keeps_old_estimators.
Qed.

(** C10. When the clone has no [n_jobs] attribute, or has one that holds
    [None], [_fit] does not touch it: the clone itself is what [fit]
    receives, and what [self._estimator] refers to if the run stops
    earlier. *)
Theorem fit_keeps_n_jobs_when_None (w : world) (X : XData) (y : list Label)
    (src : estimator_obj) :
  source_estimator w = Some src ->
  est_n_jobs (clone_of src (random_state (self w))) = None
  \/ est_n_jobs (clone_of src (random_state (self w))) = Some None ->
  let w' := (_fit X y w).2 in
  let cl := clone_of src (random_state (self w)) in
  getattr_n_jobs cl = None
  /\ current_estimator w'
     = Some (match current_transformer w with
             | None => cl
             | Some t => est_fit cl (fit_transform t X y).2 y
             end).
Proof.
  intros Hsrc Hnone w' cl. subst w'.
  assert (Hget : getattr_n_jobs cl = None).
  { unfold getattr_n_jobs. fold cl in Hnone. by destruct Hnone as [-> | ->]. }
  split; [done|].
  rewrite (fit_run w X y src Hsrc). fold cl. rewrite Hget.
  unfold current_estimator, current_transformer.
  destruct (_transformer (self w)) as [tl|]; cbn -[fresh];
    [destruct (transformers w !! tl); cbn -[fresh]|];
    by rewrite lookup_insert_eq.
Qed.

(** C8. [__init__] sets [self._transformer] to [None] and no method assigns
    it afterwards: it is [None] in every state an instance can be in, so it
    is [None] when [_fit] reaches [self._transformer.fit_transform] and when
    [_predict] and [_predict_proba] reach [self._transformer.transform],
    and each of these calls raises there. *)
Theorem transformer_is_never_set (w : world) :
  reachable w ->
  (forall sf sq e nj rs, _transformer (__init__ sf sq e nj rs) = None)
  /\ _transformer (self w) = None
  /\ (forall X y, _transformer (self (_fit X y w).2) = None)
  /\ (forall X, _transformer (self (_predict X w).2) = None)
  /\ (forall X, _transformer (self (_predict_proba X w).2) = None)
  /\ (forall X y, is_Some (source_estimator w) ->
        (_fit X y w).1 = Raised (AttributeError "NoneType" "fit_transform"))
  /\ (forall X, is_Some (_estimator (self w)) ->
        (_predict X w).1 = Raised (AttributeError "NoneType" "transform"))
  /\ (forall X, is_Some (current_estimator w) ->
        (_predict_proba X w).1 = Raised (AttributeError "NoneType" "transform")).
Proof.
  intros Hw. pose proof (reachable_transformer_None w Hw) as Hnone.
  split; [done|]. split; [done|]. split; [|split; [|split; [|split; [|split]]]].
  - intros X y. by rewrite fit_keeps_transformer_field.
  - intros X. by rewrite predict_keeps_world.
  - intros X. by rewrite predict_proba_keeps_world.
  - intros X y [src Hsrc]. rewrite (fit_run w X y src Hsrc). by rewrite Hnone.
  - intros X [c Hc]. destruct w as [es ts [sf sq e nj rs tr est b]].
    cbn in *. subst. unfold _predict. run. done.
  - intros X [eo Heo]. destruct w as [es ts [sf sq e nj rs tr est b]].
    unfold current_estimator in Heo. cbn in *. subst.
    destruct est as [c|]; [|done]. cbn in Heo.
    unfold _predict_proba. run. rewrite Heo. run.
    by destruct (est_predict_proba eo).
Qed.

(** C9. [_fit] leaves the five constructor attributes as they were and
    writes to no estimator that existed before the call, the caller's
    included. What it prepares for fitting is a new object, the clone of
    [RandomForestClassifier(n_estimators=200)] when [self.estimator] is
    [None] and of [self.estimator] otherwise, kept in [self._estimator];
    [fit] is applied to that object or to nothing. *)
Theorem fit_works_on_a_clone (w : world) (X : XData) (y : list Label)
    (src : estimator_obj) :
  source_estimator w = Some src ->
  let w' := (_fit X y w).2 in
  let cl := clone_of src (random_state (self w)) in
  let prepared := match getattr_n_jobs cl with
                  | Some _ => with_n_jobs cl (_threads_to_use (base (self w)))
                  | None => cl
                  end in
  summary_functions (self w') = summary_functions (self w)
  /\ summary_quantiles (self w') = summary_quantiles (self w)
  /\ estimator (self w') = estimator (self w)
  /\ n_jobs (self w') = n_jobs (self w)
  /\ random_state (self w') = random_state (self w)
  /\ (forall l o, estimators w !! l = Some o -> estimators w' !! l = Some o)
  /\ (exists c, _estimator (self w') = Some c
               /\ estimators w !! c = None
               /\ estimator (self w') <> Some c)
  /\ current_estimator w'
     = Some (match current_transformer w with
             | None => prepared
             | Some t => est_fit prepared (fit_transform t X y).2 y
             end).
Proof.
  intros Hsrc w' cl prepared.
  destruct (fit_keeps_hyperparameters w X y) as (H1 & H2 & H3 & H4 & H5 & _).
  repeat split; try done.
  - intros l o. apply fit_keeps_old_estimators.
  - exact (fit_estimator_is_new w X y src Hsrc).
  - subst w'. rewrite (fit_run w X y src Hsrc). fold cl. fold prepared.
    unfold current_estimator, current_transformer.
    destruct (_transformer (self w)) as [tl|]; cbn -[fresh];
      [destruct (transformers w !! tl); cbn -[fresh]|];
      by rewrite lookup_insert_eq.
Qed.

End SummaryFacts.

(** *** The statements above, run on the toy world *)

Section SummaryWitnesses.
Import Summary.
#[local] Existing Instance toy_types.
#[local] Existing Instance toy_methods.

Lemma fit_forwards_thread_hint_witness :
  source_estimator toy_world = Some toy_threaded
  /\ getattr_n_jobs (clone_of toy_threaded (random_state (self toy_world)))
     = Some 4%Z
  /\ current_estimator (_fit [3; 5] [0; 7] toy_world).2
     = Some (with_n_jobs toy_threaded 8%Z).
Proof.
  split; [reflexivity|]. split; [reflexivity|].
  exact (proj1 (fit_forwards_thread_hint toy_world [3; 5] [0; 7] toy_threaded
                  4%Z eq_refl eq_refl)).
Defined.

Lemma fit_keeps_n_jobs_when_None_witness :
  source_estimator toy_default_world = Some (RandomForestClassifier 200)
  /\ (est_n_jobs (clone_of (RandomForestClassifier 200)
                   (random_state (self toy_default_world))) = None
      \/ est_n_jobs (clone_of (RandomForestClassifier 200)
                      (random_state (self toy_default_world))) = Some None)
  /\ current_estimator (_fit [3; 5] [0; 7] toy_default_world).2
     = Some (RandomForestClassifier 200).
Proof.
  split; [reflexivity|]. split; [right; reflexivity|].
  exact (proj2 (fit_keeps_n_jobs_when_None toy_default_world [3; 5] [0; 7]
                  (RandomForestClassifier 200) eq_refl
                  (or_intror eq_refl))).
Defined.

Lemma transformer_is_never_set_witness :
  reachable (_fit [3; 5] [0; 7] toy_world).2
  /\ _transformer (self (_fit [3; 5] [0; 7] toy_world).2) = None
  /\ (_predict [4] (_fit [3; 5] [0; 7] toy_world).2).1
     = Raised (AttributeError "NoneType" "transform").
Proof.
  assert (Hr : reachable (_fit [3; 5] [0; 7] toy_world).2).
  { apply reach_fit.
    apply (reach_outside
             (World ∅ ∅ (__init__ default_summary_functions
                            default_summary_quantiles (Some 1%positive) 1%Z None))).
    apply reach_init. }
  split; [exact Hr|].
  destruct (transformer_is_never_set _ Hr) as (_ & Hnone & _ & _ & _ & _ & Hp & _).
  split; [exact Hnone|]. apply Hp. by eexists.
Defined.

Lemma fit_works_on_a_clone_witness :
  source_estimator toy_world = Some toy_threaded
  /\ estimator (self (_fit [3; 5] [0; 7] toy_world).2) = Some 1%positive
  /\ estimators (_fit [3; 5] [0; 7] toy_world).2 !! 1%positive
     = Some toy_threaded.
Proof.
  split; [reflexivity|].
  destruct (fit_works_on_a_clone toy_world [3; 5] [0; 7] toy_threaded eq_refl)
    as (_ & _ & He & _ & _ & Hold & _).
  split; [exact He|]. apply Hold. reflexivity.
Defined.

End SummaryWitnesses.

(* ===================================================================== *)
(** ** Theorems: the alignment engine *)
(* ===================================================================== *)

Section DtwFacts.
Import Dtw.
Local Open Scope R_scope.

(** *** The order on costs *)

Lemma ele_b_spec (x y : ereal) : ele_b x y = true <-> ele x y.
Proof.
  destruct x as [a|], y as [b|]; cbn; try tauto; try (split; [discriminate|tauto]).
  destruct (Rle_dec a b); split; auto; discriminate.
Qed.

Lemma ele_refl (x : ereal) : ele x x.
Proof. destruct x; cbn; [lra|trivial]. Qed.

Lemma ele_trans (x y z : ereal) : ele x y -> ele y z -> ele x z.
Proof. destruct x, y, z; cbn; try tauto; lra. Qed.

Lemma ele_total (x y : ereal) : ele x y \/ ele y x.
Proof. destruct x as [a|], y as [b|]; cbn; try tauto. lra. Qed.

Lemma emin_le_l (x y : ereal) : ele (emin x y) x.
Proof.
  unfold emin. destruct (ele_b x y) eqn:E; [apply ele_refl|].
  destruct (ele_total x y) as [Hxy|Hyx]; [|done].
  apply ele_b_spec in Hxy. congruence.
Qed.

Lemma emin_le_r (x y : ereal) : ele (emin x y) y.
Proof.
  unfold emin. destruct (ele_b x y) eqn:E; [by apply ele_b_spec|apply ele_refl].
Qed.

Lemma emin_glb (x y z : ereal) : ele z x -> ele z y -> ele z (emin x y).
Proof. unfold emin. by destruct (ele_b x y). Qed.

Lemma emin_mono (x1 y1 x2 y2 : ereal) :
  ele x1 x2 -> ele y1 y2 -> ele (emin x1 y1) (emin x2 y2).
Proof.
  intros Hx Hy. apply emin_glb.
  - eapply ele_trans; [apply emin_le_l|done].
  - eapply ele_trans; [apply emin_le_r|done].
Qed.

Lemma emin3_mono (u1 l1 d1 u2 l2 d2 : ereal) :
  ele u1 u2 -> ele l1 l2 -> ele d1 d2 -> ele (emin3 u1 l1 d1) (emin3 u2 l2 d2).
Proof. intros. unfold emin3. auto using emin_mono. Qed.

Lemma eadd_mono (c : R) (x y : ereal) : ele x y -> ele (eadd c x) (eadd c y).
Proof. destruct x, y; cbn; try tauto. lra. Qed.

(** *** A wider band lowers every cell *)

Lemma wider_None (win : option Z) : wider None win.
Proof. by intros i j _. Qed.

Lemma wider_Some (w1 w2 : Z) : (w1 <= w2)%Z -> wider (Some w2) (Some w1).
Proof.
  intros Hw i j. cbn. rewrite !Z.leb_le. lia.
Qed.

Lemma fill_cells_mono (cost : vec -> vec -> R) (win1 win2 : option Z)
    (i : nat) (a : vec) (bs : Sequence) :
  wider win1 win2 ->
  forall j ups1 ups2 d1 d2 l1 l2,
    Forall2 ele ups1 ups2 -> ele d1 d2 -> ele l1 l2 ->
    Forall2 ele (fill_cells cost win1 i j a bs ups1 d1 l1)
                (fill_cells cost win2 i j a bs ups2 d2 l2).
Proof.
  intros Hw. induction bs as [|b bs IH]; intros j ups1 ups2 d1 d2 l1 l2 Hups Hd Hl.
  - cbn. constructor.
  - destruct Hups as [|u1 u2 ups1 ups2 Hu Hups]; cbn; [constructor|].
    assert (Hv : ele
      (if in_band win1 i j then eadd (cost a b) (emin3 u1 l1 d1) else PInf)
      (if in_band win2 i j then eadd (cost a b) (emin3 u2 l2 d2) else PInf)).
    { destruct (in_band win2 i j) eqn:E2.
      - rewrite (Hw i j E2). by apply eadd_mono, emin3_mono.
      - by destruct (if in_band win1 i j then _ else _). }
    constructor; [done|]. by apply IH.
Qed.

Lemma fill_row_mono (cost : vec -> vec -> R) (win1 win2 : option Z)
    (i : nat) (a : vec) (B : Sequence) (prev1 prev2 : list ereal) :
  wider win1 win2 -> Forall2 ele prev1 prev2 ->
  Forall2 ele (fill_row cost win1 i a B prev1) (fill_row cost win2 i a B prev2).
Proof.
  intros Hw Hprev. destruct Hprev as [|d1 d2 ups1 ups2 Hd Hups]; cbn.
  - constructor.
  - constructor; [done|]. by apply fill_cells_mono.
Qed.

Lemma fill_rows_mono (cost : vec -> vec -> R) (win1 win2 : option Z)
    (A B : Sequence) :
  wider win1 win2 ->
  forall i prev1 prev2, Forall2 ele prev1 prev2 ->
    Forall2 (Forall2 ele) (fill_rows cost win1 i A B prev1)
                          (fill_rows cost win2 i A B prev2).
Proof.
  intros Hw. induction A as [|a A IH]; intros i prev1 prev2 Hprev; cbn.
  - constructor.
  - pose proof (fill_row_mono cost win1 win2 i a B _ _ Hw Hprev) as Hrow.
    constructor; [done|]. by apply IH.
Qed.

Lemma cell_mono (M1 M2 : CostMatrix) (i j : nat) :
  Forall2 (Forall2 ele) M1 M2 -> ele (cell M1 i j) (cell M2 i j).
Proof.
  intros HM. unfold cell.
  destruct (M2 !! i) as [r2|] eqn:E2.
  - destruct (Forall2_lookup_r _ _ _ _ _ HM E2) as (r1 & -> & Hr).
    destruct (r2 !! j) as [y|] eqn:Ey; cbn.
    + destruct (Forall2_lookup_r _ _ _ _ _ Hr Ey) as (x & -> & Hxy). done.
    + by destruct (default PInf (r1 !! j)).
  - by destruct (match M1 !! i with Some _ => _ | None => _ end).
Qed.

Lemma corner_cost_mono (cost : vec -> vec -> R) (win1 win2 : option Z)
    (A B : Sequence) :
  wider win1 win2 ->
  ele (corner_cost cost win1 A B) (corner_cost cost win2 A B).
Proof.
  intros Hw. apply cell_mono. unfold cost_matrix.
  assert (Hrow0 : Forall2 ele (Fin 0 :: replicate (length B) PInf)
                              (Fin 0 :: replicate (length B) PInf)).
  { apply Forall2_same_length_lookup_2; [done|].
    intros k x y Hx Hy. rewrite Hx in Hy. injection Hy as <-. apply ele_refl. }
  constructor; [done|]. by apply fill_rows_mono.
Qed.

Lemma align_total_cost (cost : vec -> vec -> R) (window : option Z)
    (A B : Sequence) (r : alignment) :
  align A B (Some cost) window = inr r ->
  negative_window window = false
  /\ same_dimension A B = true
  /\ corner_cost cost window A B = Fin (total_cost r).
Proof.
  unfold align, corner_cost. intros Hr.
  destruct (negative_window window); [done|].
  destruct (same_dimension A B); [|done]. cbn in Hr.
  destruct (cell _ _ _) as [c|]; [|done]. by injection Hr as <-.
Qed.

Lemma align_succeeds (cost : vec -> vec -> R) (window : option Z)
    (A B : Sequence) (c : R) :
  negative_window window = false ->
  same_dimension A B = true ->
  corner_cost cost window A B = Fin c ->
  exists r, align A B (Some cost) window = inr r /\ total_cost r = c.
Proof.
  unfold align, corner_cost. intros -> -> ->. cbn. by eexists.
Qed.

(** C7. For window widths w1 < w2 the cost entry of the band w1 is at least
    that of the band w2, which is at least that of the unbanded matrix
    (+infinity, the infeasible case, being the largest cost). So whenever
    the narrower alignment exists, the wider ones exist as well and their
    total costs are ordered the same way. *)
Theorem window_monotone (cost : vec -> vec -> R) (A B : Sequence) (w1 w2 : Z) :
  (w1 < w2)%Z ->
  ele (corner_cost cost (Some w2) A B) (corner_cost cost (Some w1) A B)
  /\ ele (corner_cost cost None A B) (corner_cost cost (Some w2) A B)
  /\ (forall r1, align A B (Some cost) (Some w1) = inr r1 ->
        exists r2 r3,
          align A B (Some cost) (Some w2) = inr r2
          /\ align A B (Some cost) None = inr r3
          /\ total_cost r1 >= total_cost r2
          /\ total_cost r2 >= total_cost r3)
  /\ (forall r2, align A B (Some cost) (Some w2) = inr r2 ->
        exists r3,
          align A B (Some cost) None = inr r3
          /\ total_cost r2 >= total_cost r3).
Proof.
  intros Hlt.
  assert (H21 : ele (corner_cost cost (Some w2) A B)
                    (corner_cost cost (Some w1) A B)).
  { apply corner_cost_mono, wider_Some. lia. }
  assert (HN2 : ele (corner_cost cost None A B) (corner_cost cost (Some w2) A B)).
  { apply corner_cost_mono, wider_None. }
  assert (Hnone : forall w r2, align A B (Some cost) (Some w) = inr r2 ->
            ele (corner_cost cost None A B) (corner_cost cost (Some w) A B) ->
            exists r3, align A B (Some cost) None = inr r3
                       /\ total_cost r2 >= total_cost r3).
  { intros w r2 Hr2 Hle.
    destruct (align_total_cost _ _ _ _ _ Hr2) as (_ & Hdim & Hc2).
    rewrite Hc2 in Hle.
    destruct (corner_cost cost None A B) as [c3|] eqn:Hc3; [|done].
    destruct (align_succeeds cost None A B c3 eq_refl Hdim Hc3) as (r3 & Hr3 & <-).
    exists r3. split; [done|]. cbn in Hle. lra. }
  split; [done|]. split; [done|]. split.
  - intros r1 Hr1.
    destruct (align_total_cost _ _ _ _ _ Hr1) as (Hneg & Hdim & Hc1).
    rewrite Hc1 in H21.
    destruct (corner_cost cost (Some w2) A B) as [c2|] eqn:Hc2; [|done].
    assert (Hneg2 : negative_window (Some w2) = false).
    { cbn in *. apply Z.ltb_ge. apply Z.ltb_ge in Hneg. lia. }
    destruct (align_succeeds cost (Some w2) A B c2 Hneg2 Hdim Hc2)
      as (r2 & Hr2 & <-).
    rewrite <- Hc2 in HN2.
    destruct (Hnone w2 r2 Hr2 HN2) as (r3 & Hr3 & Hle3).
    exists r2, r3. repeat split; try done. cbn in H21. lra.
  - intros r2 Hr2. by apply (Hnone w2).
Qed.

(** *** The matrix, cell by cell *)

Section Cells.
Variable cost : vec -> vec -> R.
Variable window : option Z.

Lemma fill_cells_lookup (i : nat) (a : vec) (bs : Sequence) :
  forall (j : nat) (ups : list ereal) (diag left : ereal) (k : nat)
         (b : vec) (up : ereal),
    bs !! k = Some b -> ups !! k = Some up ->
    fill_cells cost window i j a bs ups diag left !! k =
    Some (if in_band window i (j + k)
          then eadd (cost a b)
                 (emin3 up
                    match k with
                    | O => left
                    | S k' => default PInf
                                (fill_cells cost window i j a bs ups diag left !! k')
                    end
                    match k with
                    | O => diag
                    | S k' => default PInf (ups !! k')
                    end)
          else PInf).
Proof.
  induction bs as [|b0 bs IH]; intros j ups diag left k b up Hb Hup; [done|].
  destruct ups as [|u0 ups]; [done|].
  destruct k as [|k]; cbn in *.
  - injection Hb as <-. injection Hup as <-. by rewrite Nat.add_0_r.
  - rewrite (IH (S j) ups u0 _ k b up Hb Hup).
    rewrite Nat.add_succ_r. by destruct k.
Qed.

Lemma fill_cells_length (i : nat) (a : vec) (bs : Sequence) :
  forall (j : nat) (ups : list ereal) (diag left : ereal),
    length ups = length bs ->
    length (fill_cells cost window i j a bs ups diag left) = length bs.
Proof.
  induction bs as [|b0 bs IH]; intros j ups diag left Hlen; [done|].
  destruct ups as [|u0 ups]; [done|]. cbn in *. f_equal. apply IH. lia.
Qed.

Lemma fill_row_length (i : nat) (a : vec) (B : Sequence) (prev : list ereal) :
  length prev = S (length B) ->
  length (fill_row cost window i a B prev) = S (length B).
Proof.
  destruct prev as [|d0 ups]; [done|]. cbn. intros Hlen. f_equal.
  apply fill_cells_length. lia.
Qed.

Lemma fill_row_lookup (i : nat) (a : vec) (B : Sequence) (prev : list ereal)
    (k : nat) (b : vec) (up : ereal) :
  B !! k = Some b -> prev !! S k = Some up ->
  fill_row cost window i a B prev !! S k =
  Some (if in_band window i (S k)
        then eadd (cost a b)
               (emin3 up
                  (default PInf (fill_row cost window i a B prev !! k))
                  (default PInf (prev !! k)))
        else PInf).
Proof.
  destruct prev as [|d0 ups]; [done|]. intros Hb Hup.
  unfold fill_row. rewrite !lookup_cons in *.
  rewrite (fill_cells_lookup i a B 1 ups d0 PInf k b up Hb Hup).
  by destruct k.
Qed.

Lemma fill_rows_lookup (A B : Sequence) :
  forall (i : nat) (prev : list ereal) (r : nat) (a : vec),
    A !! r = Some a ->
    fill_rows cost window i A B prev !! r =
    Some (fill_row cost window (i + r) a B
            match r with
            | O => prev
            | S r' => default [] (fill_rows cost window i A B prev !! r')
            end).
Proof.
  induction A as [|a0 A IH]; intros i prev r a Ha; [done|].
  destruct r as [|r]; cbn in *.
  - injection Ha as <-. by rewrite Nat.add_0_r.
  - rewrite (IH (S i) _ r a Ha). rewrite Nat.add_succ_r. by destruct r.
Qed.

Lemma fill_rows_lengths (A B : Sequence) :
  forall (i : nat) (prev : list ereal),
    length prev = S (length B) ->
    Forall (fun row => length row = S (length B))
      (fill_rows cost window i A B prev).
Proof.
  induction A as [|a0 A IH]; intros i prev Hlen; cbn; constructor.
  - by apply fill_row_length.
  - by apply IH, fill_row_length.
Qed.

Lemma cost_matrix_lengths (A B : Sequence) :
  length (cost_matrix cost window A B) = S (length A)
  /\ Forall (fun row => length row = S (length B)) (cost_matrix cost window A B).
Proof.
  unfold cost_matrix. split.
  - cbn. f_equal. generalize 1%nat (Fin 0 :: replicate (length B) PInf).
    induction A as [|a0 A IH]; intros i prev; cbn; [done|]. by rewrite IH.
  - constructor; [cbn; by rewrite length_replicate|].
    apply fill_rows_lengths. cbn. by rewrite length_replicate.
Qed.

Lemma cost_matrix_row (A B : Sequence) (r : nat) (a : vec) :
  A !! r = Some a ->
  cost_matrix cost window A B !! S r =
  Some (fill_row cost window (S r) a B
          (default [] (cost_matrix cost window A B !! r))).
Proof.
  intros Ha. unfold cost_matrix. cbn.
  rewrite (fill_rows_lookup A B 1 _ r a Ha). by destruct r.
Qed.

(** The recurrence of step 3, read off the filled matrix. *)
Lemma cell_recurrence (A B : Sequence) (i j : nat) (a b : vec) :
  A !! i = Some a -> B !! j = Some b ->
  let M := cost_matrix cost window A B in
  cell M (S i) (S j) =
  if in_band window (S i) (S j)
  then eadd (cost a b) (emin3 (cell M i (S j)) (cell M (S i) j) (cell M i j))
  else PInf.
Proof.
  intros Ha Hb M. subst M. unfold cell.
  destruct (cost_matrix_lengths A B) as [HlenM Hrows].
  rewrite (cost_matrix_row A B i a Ha).
  assert (Hi : (i < length (cost_matrix cost window A B))%nat).
  { rewrite HlenM. apply lookup_lt_Some in Ha. lia. }
  destruct (lookup_lt_is_Some_2 _ _ Hi) as [prev Hprev].
  rewrite Hprev. cbn.
  assert (Hlen : length prev = S (length B)).
  { by apply (Forall_lookup_1 _ _ _ _ Hrows Hprev). }
  assert (Hj : (S j < length prev)%nat).
  { rewrite Hlen. apply lookup_lt_Some in Hb. lia. }
  destruct (lookup_lt_is_Some_2 _ _ Hj) as [up Hup].
  rewrite (fill_row_lookup (S i) a B prev j b up Hb Hup).
  by rewrite Hup.
Qed.

Lemma cell_origin (A B : Sequence) :
  cell (cost_matrix cost window A B) 0 0 = Fin 0.
Proof. reflexivity. Qed.

End Cells.

(** *** Identical sequences *)

Lemma eadd_nonneg (c : R) (x : ereal) : 0 <= c -> nonneg x -> nonneg (eadd c x).
Proof. unfold nonneg. destruct x; cbn; [lra|trivial]. Qed.

Lemma emin3_nonneg (u l d : ereal) :
  nonneg u -> nonneg l -> nonneg d -> nonneg (emin3 u l d).
Proof. intros. unfold emin3, nonneg. auto using emin_glb. Qed.

Lemma emin3_zero (u l : ereal) : nonneg u -> nonneg l -> emin3 u l (Fin 0) = Fin 0.
Proof.
  unfold nonneg, emin3, emin. intros Hu Hl.
  assert (Hz : forall x, ele (Fin 0) x ->
                (if ele_b x (Fin 0) then x else Fin 0) = Fin 0).
  { intros x Hx. destruct (ele_b x (Fin 0)) eqn:E; [|done].
    apply ele_b_spec in E. destruct x as [r|]; [|done]. cbn in *.
    f_equal. lra. }
  rewrite (Hz l Hl). by apply Hz.
Qed.

Lemma choose_zero_diag (u l : ereal) :
  nonneg u -> nonneg l -> choose (Fin 0) u l = Diag.
Proof.
  unfold nonneg, choose. intros Hu Hl.
  apply ele_b_spec in Hu. apply ele_b_spec in Hl. by rewrite Hu, Hl.
Qed.

Section NonNegative.
Variable cost : vec -> vec -> R.
Variable window : option Z.

Lemma fill_cells_nonneg (i : nat) (a : vec) (bs : Sequence) :
  Forall (fun b => 0 <= cost a b) bs ->
  forall j ups diag left,
    Forall nonneg ups -> nonneg diag -> nonneg left ->
    Forall nonneg (fill_cells cost window i j a bs ups diag left).
Proof.
  induction 1 as [|b bs Hb _ IH]; intros j ups diag left Hups Hd Hl;
    [constructor|].
  destruct Hups as [|u ups Hu Hups]; cbn; [constructor|].
  assert (Hv : nonneg (if in_band window i j
                       then eadd (cost a b) (emin3 u left diag) else PInf)).
  { destruct (in_band window i j); [|done].
    by apply eadd_nonneg, emin3_nonneg. }
  constructor; [done|]. by apply IH.
Qed.

Lemma cost_matrix_nonneg (A B : Sequence) :
  Forall (fun a => Forall (fun b => 0 <= cost a b) B) A ->
  Forall (Forall nonneg) (cost_matrix cost window A B).
Proof.
  intros Hcost. unfold cost_matrix.
  assert (Hrow0 : Forall nonneg (Fin 0 :: replicate (length B) PInf)).
  { constructor; [cbn; lra|]. by apply Forall_replicate. }
  constructor; [done|].
  generalize 1%nat. revert Hrow0. generalize (Fin 0 :: replicate (length B) PInf).
  induction Hcost as [|a A Ha _ IH]; intros prev Hprev i; cbn; [constructor|].
  assert (Hrow : Forall nonneg (fill_row cost window i a B prev)).
  { destruct Hprev as [|d0 ups Hd0 Hups]; cbn; [constructor|].
    constructor; [done|]. by apply fill_cells_nonneg. }
  constructor; [done|]. by apply IH.
Qed.

Lemma cell_nonneg (M : CostMatrix) (i j : nat) :
  Forall (Forall nonneg) M -> nonneg (cell M i j).
Proof.
  intros HM. unfold cell. destruct (M !! i) as [row|] eqn:Ei; [|done].
  pose proof (Forall_lookup_1 _ _ _ _ HM Ei) as Hrow.
  destruct (row !! j) as [x|] eqn:Ej; [|done].
  exact (Forall_lookup_1 _ _ _ _ Hrow Ej).
Qed.

(** On one sequence against itself the diagonal of the matrix is zero. *)
Lemma diagonal_cells_zero (A : Sequence) :
  Forall (fun a => Forall (fun b => 0 <= cost a b) A) A ->
  (forall u, cost u u = 0) ->
  negative_window window = false ->
  forall k, (k <= length A)%nat -> cell (cost_matrix cost window A A) k k = Fin 0.
Proof.
  intros Hcost Hzero Hwin.
  pose proof (cost_matrix_nonneg A A Hcost) as Hnn.
  induction k as [|k IH]; intros Hk; [done|].
  destruct (lookup_lt_is_Some_2 A k ltac:(lia)) as [a Ha].
  rewrite (cell_recurrence cost window A A k k a a Ha Ha).
  assert (Hband : in_band window (S k) (S k) = true).
  { destruct window as [w|]; [|done]. cbn in *.
    apply Z.ltb_ge in Hwin. apply Z.leb_le. lia. }
  rewrite Hband, IH by lia.
  rewrite emin3_zero by (by apply cell_nonneg).
  cbn. rewrite Hzero. f_equal. lra.
Qed.

Lemma diagonal_S (k : nat) : diagonal (S k) = diagonal k ++ [(k, k)].
Proof. unfold diagonal. by rewrite seq_S, map_app. Qed.

Lemma backtrack_diagonal (A : Sequence) :
  Forall (fun a => Forall (fun b => 0 <= cost a b) A) A ->
  (forall u, cost u u = 0) ->
  negative_window window = false ->
  forall k acc, (k <= length A)%nat ->
    backtrack (cost_matrix cost window A A) k k acc = diagonal k ++ acc.
Proof.
  intros Hcost Hzero Hwin.
  pose proof (cost_matrix_nonneg A A Hcost) as Hnn.
  induction k as [|k IH]; intros acc Hk; [done|].
  change (backtrack (cost_matrix cost window A A) (S k) (S k) acc)
    with (match choose (cell (cost_matrix cost window A A) k k)
                  (cell (cost_matrix cost window A A) k (S k))
                  (cell (cost_matrix cost window A A) (S k) k) with
          | Diag => backtrack (cost_matrix cost window A A) k k ((k, k) :: acc)
          | Up => backtrack (cost_matrix cost window A A) k (S k) ((k, k) :: acc)
          | Left => backtrack (cost_matrix cost window A A) (S k) k ((k, k) :: acc)
          end).
  rewrite (diagonal_cells_zero A Hcost Hzero Hwin k) by lia.
  rewrite choose_zero_diag by (by apply cell_nonneg).
  rewrite IH by lia. by rewrite diagonal_S, <- app_assoc.
Qed.

End NonNegative.

(** All observations of one dimension: the cost of any two is defined. *)
Lemma same_dimension_lengths (A : Sequence) :
  same_dimension A A = true ->
  forall u v, u ∈ A -> v ∈ A -> length u = length v.
Proof.
  unfold same_dimension. destruct A as [|v0 A]; [by intros _ u v Hu%elem_of_nil|].
  cbn. intros Hall.
  assert (Hlen : forall u, u ∈ v0 :: A -> length u = length v0).
  { intros u Hu. apply elem_of_cons in Hu as [->|Hu]; [done|].
    rewrite forallb_forall in Hall. apply Nat.eqb_eq, Hall.
    apply list_elem_of_In, elem_of_app. by left. }
  intros u v Hu Hv. by rewrite (Hlen u Hu), (Hlen v Hv).
Qed.

(** C6, as amended. For sequences A and B of equal length n with identical
    contents (observations of one dimensionality), any valid window, and
    any pointwise cost that is non-negative on same-dimensional vectors and
    zero on two equal vectors, [align] returns total cost 0 and the diagonal
    path (0,0), (1,1), ..., (n-1,n-1). *)
Theorem align_identical (cost : vec -> vec -> R) (A B : Sequence)
    (window : option Z) :
  (forall u v, length u = length v -> 0 <= cost u v) ->
  (forall u, cost u u = 0) ->
  same_dimension A B = true ->
  negative_window window = false ->
  B = A ->
  exists r, align A B (Some cost) window = inr r
            /\ total_cost r = 0
            /\ path r = diagonal (length A)
            /\ matrix r = cost_matrix cost window A B.
Proof.
  intros Hpos Hzero Hdim Hwin ->.
  assert (Hcost : Forall (fun a => Forall (fun b => 0 <= cost a b) A) A).
  { apply Forall_forall. intros a Ha. apply Forall_forall. intros b Hb.
    apply Hpos. by apply (same_dimension_lengths A Hdim). }
  unfold align. rewrite Hwin, Hdim. cbn.
  rewrite (diagonal_cells_zero cost window A Hcost Hzero Hwin (length A)) by lia.
  eexists. split; [done|]. cbn. split; [done|]. split; [|done].
  rewrite (backtrack_diagonal cost window A Hcost Hzero Hwin) by lia.
  apply app_nil_r.
Qed.

(** C6 as stated fails: a constant cost of 1 is finite and non-negative, and
    aligning the one-point sequence with itself then costs 1, not 0. *)
Lemma align_identical_constant_cost :
  (forall u v : vec, length u = length v -> 0 <= (fun _ _ : vec => 1) u v)
  /\ exists r, align [[0]] [[0]] (Some (fun _ _ : vec => 1)) None = inr r
               /\ path r = [(0%nat, 0%nat)]
               /\ total_cost r <> 0.
Proof.
  split; [intros; lra|].
  eexists. split; [reflexivity|]. split; [reflexivity|]. cbn. lra.
Qed.

Lemma squared_difference_nonneg (u v : vec) : 0 <= squared_difference u v.
Proof.
  unfold squared_difference. revert v.
  induction u as [|x u IH]; intros [|y v]; cbn; try lra.
  apply Rplus_le_le_0_compat; [exact (Rle_0_sqr (x - y))|apply IH].
Qed.

Lemma squared_difference_self (u : vec) : squared_difference u u = 0.
Proof.
  unfold squared_difference. induction u as [|x u IH]; cbn; [done|].
  rewrite IH. lra.
Qed.

(** The scenario A = B = [1, 2, 3] with the squared difference. *)
Lemma align_identical_witness :
  same_dimension [[1]; [2]; [3]] [[1]; [2]; [3]] = true
  /\ exists r, align [[1]; [2]; [3]] [[1]; [2]; [3]] (Some squared_difference) None
               = inr r
               /\ total_cost r = 0
               /\ path r = [(0, 0); (1, 1); (2, 2)]%nat.
Proof.
  split; [reflexivity|].
  destruct (align_identical squared_difference [[1]; [2]; [3]] [[1]; [2]; [3]]
              None (fun u v _ => squared_difference_nonneg u v)
              squared_difference_self eq_refl eq_refl eq_refl)
    as (r & Hr & Hc & Hp & _).
  exists r. split; [exact Hr|]. split; [exact Hc|exact Hp].
Defined.

Ltac settle_bands :=
  repeat match goal with
         | |- context [(?a <=? ?b)%Z] =>
             let v := eval vm_compute in (a <=? b)%Z in
             change (a <=? b)%Z with v
         end.

Ltac settle_cells :=
  repeat (cbn;
          match goal with
          | |- context [Rle_dec ?a ?b] => destruct (Rle_dec a b); try lra
          end).

(** A = [0,1,1] against B = [0,0,1]: the band of width 0 forces the
    diagonal, which costs 1; width 1 and no band allow the path through
    (0,1) and (1,2), which costs 0. *)
Lemma shifted_step_window_0 :
  exists r, align [[0]; [1]; [1]] [[0]; [0]; [1]] (Some squared_difference)
              (Some 0%Z) = inr r
            /\ total_cost r = 1.
Proof.
  unfold align, squared_difference. cbn. settle_bands.
  unfold emin3, emin, choose. settle_cells.
  eexists. split; [reflexivity|]. cbn. lra.
Qed.

Lemma shifted_step_window_1 :
  exists r, align [[0]; [1]; [1]] [[0]; [0]; [1]] (Some squared_difference)
              (Some 1%Z) = inr r
            /\ total_cost r = 0.
Proof.
  unfold align, squared_difference. cbn. settle_bands.
  unfold emin3, emin, choose. settle_cells.
  eexists. split; [reflexivity|]. cbn. lra.
Qed.

Lemma shifted_step_unbanded :
  exists r, align [[0]; [1]; [1]] [[0]; [0]; [1]] (Some squared_difference)
              None = inr r
            /\ total_cost r = 0.
Proof.
  unfold align, squared_difference. cbn.
  unfold emin3, emin, choose. settle_cells.
  eexists. split; [reflexivity|]. cbn. lra.
Qed.

Lemma window_monotone_witness :
  (0 < 1)%Z
  /\ exists r1 r2 r3,
       align [[0]; [1]; [1]] [[0]; [0]; [1]] (Some squared_difference)
         (Some 0%Z) = inr r1
       /\ align [[0]; [1]; [1]] [[0]; [0]; [1]] (Some squared_difference)
            (Some 1%Z) = inr r2
       /\ align [[0]; [1]; [1]] [[0]; [0]; [1]] (Some squared_difference)
            None = inr r3
       /\ total_cost r1 = 1
       /\ total_cost r2 = 0
       /\ total_cost r3 = 0
       /\ total_cost r1 >= total_cost r2
       /\ total_cost r2 >= total_cost r3.
Proof.
  split; [lia|].
  destruct shifted_step_window_0 as (r1 & Hr1 & Hc1).
  destruct (window_monotone squared_difference [[0]; [1]; [1]]
              [[0]; [0]; [1]] 0%Z 1%Z ltac:(lia)) as (_ & _ & Hall & _).
  destruct (Hall r1 Hr1) as (r2 & r3 & Hr2 & Hr3 & H12 & H23).
  destruct shifted_step_window_1 as (r2' & Hr2' & Hc2).
  destruct shifted_step_unbanded as (r3' & Hr3' & Hc3).
  assert (E2 : r2' = r2) by congruence.
  assert (E3 : r3' = r3) by congruence.
  subst r2' r3'.
  exists r1, r2, r3. repeat split; assumption.
Defined.

(** *** The model on the scenarios of section 8 *)

Ltac settle_comparisons :=
  repeat (cbn;
          match goal with
          | |- context [Rle_dec ?a ?b] => destruct (Rle_dec a b); try lra
          end).

Lemma squared_difference_0_1 : squared_difference [0] [1] = 1.
Proof. unfold squared_difference. cbn. lra. Qed.

(** A = [0,0,0], B = [1,1,1], no window: total cost 3 along the diagonal. *)
Example scenario_constant_offset :
  exists r, align [[0]; [0]; [0]] [[1]; [1]; [1]] (Some squared_difference) None
            = inr r
            /\ total_cost r = 3
            /\ path r = [(0, 0); (1, 1); (2, 2)]%nat.
Proof.
  unfold align. cbn -[squared_difference]. rewrite !squared_difference_0_1.
  unfold emin3, emin, choose. settle_comparisons.
  eexists. split; [reflexivity|]. cbn. split; [lra|].
  unfold choose. settle_comparisons. reflexivity.
Qed.

(** Window 0 and sequences of different lengths: no path. *)
Example scenario_window_zero :
  align [[0]; [0]] [[1]] (Some squared_difference) (Some 0%Z)
  = inl InfeasibleAlignment.
Proof.
  unfold align. cbn -[squared_difference]. rewrite !squared_difference_0_1.
  unfold emin3, emin, choose. settle_comparisons. reflexivity.
Qed.

(** A negative window, or no cost function, is refused before the matrix
    is built. *)
Example scenario_invalid_parameters (A B : Sequence) (cost : vec -> vec -> R) :
  align A B (Some cost) (Some (-1)%Z) = inl InvalidParameters
  /\ align A B None None = inl InvalidParameters.
Proof. done. Qed.

End DtwFacts.

(* ===================================================================== *)
(** ** SummaryClassifier: edge cases, frames and composition *)
(* ===================================================================== *)

Module SummaryCases.
Import Summary.

Section Faults.
Context `{Collaborators}.

(** What goes wrong, if anything, in iteration [i] of the loop of
    [_predict_proba]: [preds[i]] out of range, the label missing from the
    class dictionary, or its index outside a row of [k] entries. *)
Definition row_fault (d : gmap Label nat) (k : nat) (preds : list Label)
    (i : nat) : option exn :=
  match preds !! i with
  | None => Some IndexError
  | Some p =>
      match d !! p with
      | None => Some KeyError
      | Some c => if decide (c < k) then None else Some IndexError
      end
  end.

End Faults.

#[local] Existing Instance toy_types.
#[local] Existing Instance toy_methods.

(** The toy instance with a transformer and a fitted estimator put in by
    hand: the estimator at location 1 predicts label 7 for every row. *)
Definition toy_piped_world : world :=
  World {[ 1%positive := toy_threaded ]} {[ 1%positive := 0 ]}
    (Classifier default_summary_functions default_summary_quantiles
       (Some 1%positive) 1%Z None (Some 1%positive) (Some 1%positive)
       (BaseState toy_types 2 {[ 0 := 0; 7 := 1 ]} 8%Z)).

(** The same, with a class dictionary that does not know label 7. *)
Definition toy_unknown_label_world : world :=
  World (estimators toy_piped_world) (transformers toy_piped_world)
    (with_base (self toy_piped_world) (BaseState toy_types 2 {[ 0 := 0 ]} 8%Z)).

(** The same, with [n_classes_] too small for the index of label 7. *)
Definition toy_one_class_world : world :=
  World (estimators toy_piped_world) (transformers toy_piped_world)
    (with_base (self toy_piped_world)
       (BaseState toy_types 1 {[ 0 := 0; 7 := 1 ]} 8%Z)).

(** Toy estimators whose [predict] returns no label at all. *)
Definition toy_silent_methods : Methods := {|
  RandomForestClassifier := fun k => EstimatorObj toy_types (Some None) k;
  clone_of := fun o _ => o;
  est_fit := fun o _ _ => o;
  est_predict := fun _ _ => [];
  est_predict_proba := fun _ => None;
  fit_transform := fun t X _ => (t, X);
  transform := fun _ X => X;
  BaseClassifier_init := BaseState toy_types 0 ∅ 1%Z;
|}.

(** Toy estimators with a [predict_proba] that answers a half for every
    row. *)
Definition toy_proba_methods : Methods := {|
  RandomForestClassifier := fun k => EstimatorObj toy_types (Some None) k;
  clone_of := fun o _ => o;
  est_fit := fun o _ _ => o;
  est_predict := fun o X_t => map (fun _ => est_model o) X_t;
  est_predict_proba := fun _ => Some (map (fun _ => [(1 # 2)%Q; (1 # 2)%Q]));
  fit_transform := fun t X _ => (t, X);
  transform := fun _ X => X;
  BaseClassifier_init := BaseState toy_types 0 ∅ 1%Z;
|}.

(** Toy estimators that count how often they were fitted, in their
    model. *)
Definition toy_counting_methods : Methods := {|
  RandomForestClassifier := fun k => EstimatorObj toy_types (Some None) k;
  clone_of := fun o _ => o;
  est_fit := fun o _ _ => EstimatorObj toy_types (est_n_jobs o) (S (est_model o));
  est_predict := fun o X_t => map (fun _ => est_model o) X_t;
  est_predict_proba := fun _ => None;
  fit_transform := fun t X _ => (S t, X);
  transform := fun _ X => X;
  BaseClassifier_init := BaseState toy_types 0 ∅ 1%Z;
|}.

End SummaryCases.

Section SummaryCasesFacts.
Import Summary SummaryCases.
Context `{Methods}.

Ltac unfold_ops :=
  unfold mbind, M_bind, mret, M_ret, get_self, set_self__estimator, new,
    deref, assign, deref_t, assign_t, attr_of, raise,
    getattr_predict_proba in *.

Ltac exec :=
  repeat first
    [ progress cbn -[fresh] in *
    | progress unfold_ops
    | rewrite lookup_insert_eq
    | rewrite insert_insert_eq ].

(** X1. Asked to predict while [self._estimator] is [None], both
    [_predict] and [_predict_proba] raise on [self._estimator.predict]:
    the [getattr] with a default in [_predict_proba] lets [None] through,
    and the transformer is not looked at, present or not. *)
Theorem predict_without_estimator (w : world) (X : XData) :
  _estimator (self w) = None ->
  _predict X w = (Raised (AttributeError "NoneType" "predict"), w)
  /\ _predict_proba X w = (Raised (AttributeError "NoneType" "predict"), w).
Proof.
  destruct w as [es ts [sf sq e nj rs tr est b]]. cbn. intros ->.
  split; [unfold _predict | unfold _predict_proba]; exec; done.
Qed.

(** X2. [_predict] and [_predict_proba] write nothing: the instance and
    every estimator and transformer object are the same after the call,
    whether it returns or raises. *)
Theorem predicting_changes_nothing (w : world) (X : XData) :
  (_predict X w).2 = w /\ (_predict_proba X w).2 = w.
Proof.
  split; [apply predict_keeps_world | apply predict_proba_keeps_world].
Qed.

(** X3. On an instance that went through [__init__] no call of [_fit],
    [_predict] or [_predict_proba] ever returns: each one ends in a raise,
    whatever its arguments and whatever was called before. *)
Theorem no_method_returns_normally (w : world) (X : XData) (y : list Label) :
  reachable w ->
  (exists e, (_fit X y w).1 = Raised e)
  /\ (exists e, (_predict X w).1 = Raised e)
  /\ (exists e, (_predict_proba X w).1 = Raised e).
Proof.
  intros Hw. pose proof (reachable_transformer_None w Hw) as Hnone.
  split; [|split].
  - destruct (source_estimator w) as [src|] eqn:Hsrc.
    + rewrite (fit_run w X y src Hsrc), Hnone. by eexists.
    + rewrite (fit_dangling w X y Hsrc). by eexists.
  - destruct w as [es ts [sf sq e nj rs tr est b]]. cbn in Hnone. subst tr.
    unfold _predict. exec. destruct est; exec; by eexists.
  - destruct w as [es ts [sf sq e nj rs tr est b]]. cbn in Hnone. subst tr.
    unfold _predict_proba. exec. destruct est as [c|]; exec; [|by eexists].
    destruct (es !! c) as [eo|]; exec; [|by eexists].
    destruct (est_predict_proba eo); exec; by eexists.
Qed.

(** The loop of [_predict_proba] computes its outcome from the
    predictions and the class dictionary alone. *)
Lemma one_hot_loop_outcome (d : gmap Label nat) (preds : list Label)
    (idx : list nat) :
  forall (dists : list (list Q)) (w w' : world),
    (for_each idx
       (fun i dists =>
          p ← getitem preds i;
          c ← dict_getitem d p;
          setitem2 dists i c 1%Q) dists w).1
    = (for_each idx
         (fun i dists =>
            p ← getitem preds i;
            c ← dict_getitem d p;
            setitem2 dists i c 1%Q) dists w').1.
Proof.
  unfold getitem, dict_getitem, setitem2.
  induction idx as [|i idx IH]; intros dists w w'; [done|].
  exec.
  destruct (preds !! i) as [p|]; exec; [|done].
  destruct (d !! p) as [c|]; exec; [|done].
  destruct (dists !! i) as [row|]; exec; [|done].
  destruct (decide (c < length row)); exec; [|done].
  apply IH.
Qed.

(** X4. No method reads [summary_functions], [summary_quantiles] or
    [n_jobs]: two instances that differ in nothing else get the same
    outcome from [_fit], [_predict] and [_predict_proba], and [_fit]
    leaves the same objects and the same [self._estimator] behind. The
    thread count handed to the estimator is [self._threads_to_use]. *)
Theorem unused_constructor_parameters (es : gmap loc estimator_obj)
    (ts : gmap loc Transformer) (sf sf' : list string) (sq sq' : list Q)
    (e : option loc) (nj nj' : Z) (rs : option Z) (tr est : option loc)
    (b : base_state) (X : XData) (y : list Label) :
  let w := World es ts (Classifier sf sq e nj rs tr est b) in
  let w' := World es ts (Classifier sf' sq' e nj' rs tr est b) in
  (_fit X y w).1 = (_fit X y w').1
  /\ estimators (_fit X y w).2 = estimators (_fit X y w').2
  /\ transformers (_fit X y w).2 = transformers (_fit X y w').2
  /\ _estimator (self (_fit X y w).2) = _estimator (self (_fit X y w').2)
  /\ (_predict X w).1 = (_predict X w').1
  /\ (_predict_proba X w).1 = (_predict_proba X w').1.
Proof.
  intros w w'.
  assert (Hfit : (_fit X y w).1 = (_fit X y w').1
                 /\ estimators (_fit X y w).2 = estimators (_fit X y w').2
                 /\ transformers (_fit X y w).2 = transformers (_fit X y w').2
                 /\ _estimator (self (_fit X y w).2)
                    = _estimator (self (_fit X y w').2)).
  { destruct (source_estimator w) as [src|] eqn:Hsrc.
    - rewrite (fit_run w X y src Hsrc), (fit_run w' X y src Hsrc).
      subst w w'. cbn -[fresh]. destruct tr as [tl|]; [|done].
      by destruct (ts !! tl).
    - by rewrite (fit_dangling w X y Hsrc), (fit_dangling w' X y Hsrc). }
  destruct Hfit as (H1 & H2 & H3 & H4). repeat split; try done.
  - subst w w'. unfold _predict. exec. destruct est as [c|]; exec; [|done].
    destruct tr as [tl|]; exec; [|done]. destruct (ts !! tl); exec; [|done].
    by destruct (es !! c).
  - subst w w'. unfold _predict_proba. exec.
    destruct est as [c|]; exec; [|done].
    destruct (es !! c) as [eo|] eqn:Hc; exec; [|done].
    destruct (est_predict_proba eo); exec.
    + destruct tr as [tl|]; exec; [|done]. by destruct (ts !! tl).
    + destruct tr as [tl|]; exec; [|done].
      destruct (ts !! tl) as [t|]; exec; [|done]. rewrite Hc.
      apply one_hot_loop_outcome.
Qed.

(** After [_fit], [self._estimator] refers to an object of the store. *)
Lemma fit_estimator_allocated (w : world) (X : XData) (y : list Label)
    (src : estimator_obj) :
  source_estimator w = Some src ->
  exists c o, _estimator (self (_fit X y w).2) = Some c
              /\ estimators (_fit X y w).2 !! c = Some o.
Proof.
  intros Hsrc. rewrite (fit_run w X y src Hsrc).
  destruct (_transformer (self w)) as [tl|]; cbn -[fresh];
    [destruct (transformers w !! tl); cbn -[fresh]|];
    eexists _, _; (split; [reflexivity|]); by rewrite lookup_insert_eq.
Qed.

(** [_fit] clones from the same object the next time. *)
Lemma fit_keeps_source (w : world) (X : XData) (y : list Label)
    (src : estimator_obj) :
  source_estimator w = Some src -> source_estimator (_fit X y w).2 = Some src.
Proof.
  intros Hsrc. unfold source_estimator in *.
  destruct (fit_keeps_hyperparameters w X y) as (_ & _ & -> & _).
  destruct (estimator (self w)) as [l|]; [|done].
  by apply fit_keeps_old_estimators.
Qed.

(** What [self._estimator] refers to after [_fit]. *)
Lemma fit_current_estimator (w : world) (X : XData) (y : list Label)
    (src : estimator_obj) :
  source_estimator w = Some src ->
  let cl := clone_of src (random_state (self w)) in
  let prepared := match getattr_n_jobs cl with
                  | Some _ => with_n_jobs cl (_threads_to_use (base (self w)))
                  | None => cl
                  end in
  current_estimator (_fit X y w).2
  = Some (match current_transformer w with
          | None => prepared
          | Some t => est_fit prepared (fit_transform t X y).2 y
          end).
Proof.
  intros Hsrc cl prepared. rewrite (fit_run w X y src Hsrc).
  fold cl. fold prepared. unfold current_estimator, current_transformer.
  destruct (_transformer (self w)) as [tl|]; cbn -[fresh];
    [destruct (transformers w !! tl); cbn -[fresh]|];
    by rewrite lookup_insert_eq.
Qed.

(** X5. A second [_fit] does not continue from the estimator the first one
    prepared: it clones the caller's estimator (or a new forest) again,
    stores the new clone under a new identity in [self._estimator], and
    leaves the first clone as it was. The object the second call leaves
    in [self._estimator] is made from that source alone: the clone of the
    source, with the thread count set if it has one, fitted on the second
    training data when a transformer is there. *)
Theorem refit_clones_again (w : world) (X1 X2 : XData) (y1 y2 : list Label)
    (src : estimator_obj) :
  source_estimator w = Some src ->
  let w1 := (_fit X1 y1 w).2 in
  let w2 := (_fit X2 y2 w1).2 in
  let cl := clone_of src (random_state (self w)) in
  let prepared := match getattr_n_jobs cl with
                  | Some _ => with_n_jobs cl (_threads_to_use (base (self w)))
                  | None => cl
                  end in
  source_estimator w1 = Some src
  /\ exists c1 c2 o1,
       _estimator (self w1) = Some c1
       /\ estimators w1 !! c1 = Some o1
       /\ _estimator (self w2) = Some c2
       /\ c2 <> c1
       /\ estimators w2 !! c1 = Some o1
       /\ estimators w2 !! c2
          = Some (match current_transformer w1 with
                  | None => prepared
                  | Some t => est_fit prepared (fit_transform t X2 y2).2 y2
                  end).
Proof.
  intros Hsrc w1 w2 cl prepared.
  pose proof (fit_keeps_source w X1 y1 src Hsrc) as Hsrc1. fold w1 in Hsrc1.
  split; [done|].
  destruct (fit_estimator_allocated w X1 y1 src Hsrc) as (c1 & o1 & Hc1 & Ho1).
  destruct (fit_estimator_is_new w1 X2 y2 src Hsrc1) as (c2 & Hc2 & Hnew & _).
  exists c1, c2, o1. fold w1 in Hc1, Ho1. fold w2 in Hc2.
  repeat split; try done.
  - intros ->. rewrite Ho1 in Hnew. done.
  - by apply fit_keeps_old_estimators.
  - pose proof (fit_current_estimator w1 X2 y2 src Hsrc1) as Hcur.
    cbv zeta in Hcur. fold w2 in Hcur.
    destruct (fit_keeps_hyperparameters w X1 y1) as (_ & _ & _ & _ & Hrs & Hb).
    fold w1 in Hrs, Hb. rewrite Hrs, Hb in Hcur. fold cl in Hcur.
    fold prepared in Hcur. unfold current_estimator in Hcur.
    rewrite Hc2 in Hcur. exact Hcur.
Qed.

(** X6. With a transformer in [self._transformer], [_fit] returns and a
    following [_predict] returns the predictions of the fitted clone on
    the features the fitted transformer makes of its input: the clone was
    fitted on the table [fit_transform] made of the training data. *)
Theorem fit_then_predict (w : world) (X X' : XData) (y : list Label)
    (src : estimator_obj) (t : Transformer) :
  source_estimator w = Some src ->
  current_transformer w = Some t ->
  let cl := clone_of src (random_state (self w)) in
  let prepared := match getattr_n_jobs cl with
                  | Some _ => with_n_jobs cl (_threads_to_use (base (self w)))
                  | None => cl
                  end in
  let w' := (_fit X y w).2 in
  (_fit X y w).1 = Normal tt
  /\ _predict X' w'
     = (Normal (est_predict (est_fit prepared (fit_transform t X y).2 y)
                  (transform (fit_transform t X y).1 X')), w').
Proof.
  intros Hsrc Ht cl prepared w'.
  destruct (fit_with_transformer w X y src t Hsrc Ht) as (Hok & Ht' & He').
  split; [done|]. by apply predict_with_transformer.
Qed.

(** X7. With a transformer in place, an estimator without a callable
    [predict_proba] and predictions that the class dictionary maps below
    [n_classes_], [_predict_proba] returns one row per instance, each of
    [n_classes_] entries: 1 at the class index of that instance's
    prediction and 0 elsewhere. *)
Theorem predict_proba_one_hot_matrix (w : world) (X : XData)
    (e : estimator_obj) (t : Transformer) :
  current_estimator w = Some e ->
  current_transformer w = Some t ->
  est_predict_proba e = None ->
  (forall i, i < shape0 X ->
     exists p c, est_predict e (transform t X) !! i = Some p
                 /\ _class_dictionary (base (self w)) !! p = Some c
                 /\ c < n_classes_ (base (self w))) ->
  exists dists,
    _predict_proba X w = (Normal dists, w)
    /\ length dists = shape0 X
    /\ forall i p c,
         i < shape0 X ->
         est_predict e (transform t X) !! i = Some p ->
         _class_dictionary (base (self w)) !! p = Some c ->
         exists row, dists !! i = Some row
                     /\ length row = n_classes_ (base (self w))
                     /\ row !! c = Some 1%Q
                     /\ forall j, j < n_classes_ (base (self w)) -> j <> c ->
                                  row !! j = Some 0%Q.
Proof.
  intros He Ht Hpp Hpreds.
  eexists. split; [by apply (predict_proba_one_hot w X e t)|].
  split; [by rewrite length_map, length_seq|].
  intros i p c Hi Hp Hc.
  destruct (Hpreds i Hi) as (p' & c' & Hp' & Hc' & Hlt).
  rewrite Hp in Hp'. injection Hp' as <-. rewrite Hc in Hc'. injection Hc' as <-.
  eexists. split.
  - rewrite list_lookup_fmap, lookup_seq_lt by done. cbn. rewrite Hp. cbn.
    rewrite Hc. reflexivity.
  - cbn. by apply one_hot_entries.
Qed.

(** The loop of [_predict_proba] stops at the first faulty row, with the
    exception of that row. *)
Lemma one_hot_loop_fault (d : gmap Label nat) (k : nat) (preds : list Label)
    (w : world) :
  forall (len s : nat) (done_rows : list (list Q)) (i : nat) (ex : exn),
    length done_rows = s ->
    s <= i < s + len ->
    (forall j, s <= j < i -> row_fault d k preds j = None) ->
    row_fault d k preds i = Some ex ->
    for_each (seq s len)
      (fun i dists =>
         p ← getitem preds i;
         c ← dict_getitem d p;
         setitem2 dists i c 1%Q)
      (done_rows ++ replicate len (replicate k 0%Q)) w
    = (Raised ex, w).
Proof.
  unfold getitem, dict_getitem, setitem2.
  induction len as [|len IH]; intros s done_rows i ex Hlen Hi Hbefore Hfault;
    [lia|].
  assert (Hrow : (done_rows ++ replicate (S len) (replicate k 0%Q)) !! s
                 = Some (replicate k 0%Q)).
  { rewrite lookup_app_r by lia. by replace (s - length done_rows) with 0 by lia. }
  destruct (decide (s = i)) as [->|Hne].
  - unfold row_fault in Hfault. exec.
    destruct (preds !! i) as [p|]; exec; [|by injection Hfault as <-].
    destruct (d !! p) as [c|]; exec; [|by injection Hfault as <-].
    rewrite Hrow. exec. rewrite length_replicate.
    destruct (decide (c < k)); [done|]. exec. by injection Hfault as <-.
  - pose proof (Hbefore s ltac:(lia)) as Hok. unfold row_fault in Hok. exec.
    destruct (preds !! s) as [p|]; exec; [|done].
    destruct (d !! p) as [c|]; exec; [|done].
    rewrite Hrow. exec. rewrite length_replicate.
    destruct (decide (c < k)); [|done]. exec.
    rewrite insert_app_r_alt by lia.
    replace (s - length done_rows) with 0 by lia. cbn.
    rewrite (cons_middle _ done_rows), app_assoc.
    apply (IH (S s) _ i ex).
    + rewrite length_app. cbn. lia.
    + lia.
    + intros j Hj. apply Hbefore. lia.
    + done.
Qed.

Lemma predict_proba_first_fault (w : world) (X : XData) (e : estimator_obj)
    (t : Transformer) (i : nat) (ex : exn) :
  current_estimator w = Some e ->
  current_transformer w = Some t ->
  est_predict_proba e = None ->
  i < shape0 X ->
  (forall j, j < i ->
     row_fault (_class_dictionary (base (self w))) (n_classes_ (base (self w)))
       (est_predict e (transform t X)) j = None) ->
  row_fault (_class_dictionary (base (self w))) (n_classes_ (base (self w)))
    (est_predict e (transform t X)) i = Some ex ->
  _predict_proba X w = (Raised ex, w).
Proof.
  destruct w as [es ts [sf sq e0 nj rs tr est b]].
  unfold current_estimator, current_transformer, _predict_proba. cbn.
  destruct est as [c|]; [|done]. destruct tr as [tl|]; [|done]. cbn.
  intros He Ht Hpp Hi Hbefore Hfault. exec. rewrite He. exec. rewrite Hpp. exec.
  rewrite Ht. exec. rewrite He. unfold zeros.
  apply (one_hot_loop_fault (_class_dictionary b) (n_classes_ b)
           (est_predict e (transform t X)) _ (shape0 X) 0 [] i ex);
    [done|lia| |done].
  intros j Hj. apply Hbefore. lia.
Qed.

Lemma row_fault_None (d : gmap Label nat) (k : nat) (preds : list Label)
    (j : nat) :
  (exists p c, preds !! j = Some p /\ d !! p = Some c /\ c < k) ->
  row_fault d k preds j = None.
Proof.
  intros (p & c & Hp & Hc & Hlt). unfold row_fault. rewrite Hp, Hc.
  by rewrite decide_True.
Qed.

(** X8. A prediction that is no key of [self._class_dictionary] makes
    [_predict_proba] raise [KeyError] (when the rows before it are in
    order), and nothing is changed. *)
Theorem predict_proba_unknown_label (w : world) (X : XData)
    (e : estimator_obj) (t : Transformer) (i : nat) (p : Label) :
  current_estimator w = Some e ->
  current_transformer w = Some t ->
  est_predict_proba e = None ->
  i < shape0 X ->
  (forall j, j < i ->
     exists q c, est_predict e (transform t X) !! j = Some q
                 /\ _class_dictionary (base (self w)) !! q = Some c
                 /\ c < n_classes_ (base (self w))) ->
  est_predict e (transform t X) !! i = Some p ->
  _class_dictionary (base (self w)) !! p = None ->
  _predict_proba X w = (Raised KeyError, w).
Proof.
  intros He Ht Hpp Hi Hbefore Hp Hmiss.
  apply (predict_proba_first_fault w X e t i KeyError); try done.
  - intros j Hj. by apply row_fault_None, Hbefore.
  - unfold row_fault. by rewrite Hp, Hmiss.
Qed.

(** X9. A prediction whose class index is [n_classes_] or more makes
    [_predict_proba] raise [IndexError] on the write into the row (when
    the rows before it are in order), and nothing is changed. *)
Theorem predict_proba_class_index_too_large (w : world) (X : XData)
    (e : estimator_obj) (t : Transformer) (i : nat) (p : Label) (c : nat) :
  current_estimator w = Some e ->
  current_transformer w = Some t ->
  est_predict_proba e = None ->
  i < shape0 X ->
  (forall j, j < i ->
     exists q c', est_predict e (transform t X) !! j = Some q
                  /\ _class_dictionary (base (self w)) !! q = Some c'
                  /\ c' < n_classes_ (base (self w))) ->
  est_predict e (transform t X) !! i = Some p ->
  _class_dictionary (base (self w)) !! p = Some c ->
  n_classes_ (base (self w)) <= c ->
  _predict_proba X w = (Raised IndexError, w).
Proof.
  intros He Ht Hpp Hi Hbefore Hp Hc Hge.
  apply (predict_proba_first_fault w X e t i IndexError); try done.
  - intros j Hj. by apply row_fault_None, Hbefore.
  - unfold row_fault. rewrite Hp, Hc. rewrite decide_False; [done|lia].
Qed.

(** X10. When the estimator returns fewer predictions than [X] has
    instances, [_predict_proba] raises [IndexError] on [preds[i]] at the
    first instance without a prediction; the rows filled so far are
    dropped. *)
Theorem predict_proba_too_few_predictions (w : world) (X : XData)
    (e : estimator_obj) (t : Transformer) :
  current_estimator w = Some e ->
  current_transformer w = Some t ->
  est_predict_proba e = None ->
  length (est_predict e (transform t X)) < shape0 X ->
  (forall j, j < length (est_predict e (transform t X)) ->
     exists q c, est_predict e (transform t X) !! j = Some q
                 /\ _class_dictionary (base (self w)) !! q = Some c
                 /\ c < n_classes_ (base (self w))) ->
  _predict_proba X w = (Raised IndexError, w).
Proof.
  intros He Ht Hpp Hshort Hbefore.
  apply (predict_proba_first_fault w X e t
           (length (est_predict e (transform t X))) IndexError); try done.
  - intros j Hj. by apply row_fault_None, Hbefore.
  - unfold row_fault. by rewrite lookup_ge_None_2.
Qed.

(** X11. When the estimator has a callable [predict_proba],
    [_predict_proba] returns its output on the transformed input as it
    is: [n_classes_] and the class dictionary are not consulted, so the
    result is the same under any other base attributes. *)
Theorem predict_proba_passes_through (w : world) (X : XData)
    (e : estimator_obj) (t : Transformer)
    (predict_proba : Features -> list (list Q)) (b : base_state) :
  current_estimator w = Some e ->
  current_transformer w = Some t ->
  est_predict_proba e = Some predict_proba ->
  _predict_proba X w = (Normal (predict_proba (transform t X)), w)
  /\ (_predict_proba X
        (World (estimators w) (transformers w) (with_base (self w) b))).1
     = Normal (predict_proba (transform t X)).
Proof.
  intros He Ht Hpp. split; [by apply (predict_proba_callable w X e t)|].
  by rewrite (predict_proba_callable _ X e t predict_proba).
Qed.

(** X12. For an input without instances the one-hot branch of
    [_predict_proba] returns the empty matrix: the loop does not run, so
    neither the predictions nor the class dictionary can make it raise. *)
Theorem predict_proba_no_instances (w : world) (X : XData)
    (e : estimator_obj) (t : Transformer) :
  current_estimator w = Some e ->
  current_transformer w = Some t ->
  est_predict_proba e = None ->
  shape0 X = 0 ->
  _predict_proba X w = (Normal [], w).
Proof.
  intros He Ht Hpp Hzero.
  rewrite (predict_proba_one_hot w X e t He Ht Hpp); [by rewrite Hzero|].
  intros i Hi. lia.
Qed.

End SummaryCasesFacts.

(** *** The cases above, run on the toy worlds *)

Section SummaryCasesWitnesses.
Import Summary SummaryCases.
#[local] Existing Instance toy_types.
#[local] Existing Instance toy_methods.

Lemma predict_without_estimator_witness :
  _estimator (self toy_default_world) = None
  /\ _predict [4] toy_default_world
     = (Raised (AttributeError "NoneType" "predict"), toy_default_world)
  /\ _predict_proba [4] toy_default_world
     = (Raised (AttributeError "NoneType" "predict"), toy_default_world).
Proof.
  split; [reflexivity|].
  exact (predict_without_estimator toy_default_world [4] eq_refl).
Defined.

Lemma no_method_returns_normally_witness :
  reachable toy_default_world
  /\ exists e, (_fit [3; 5] [0; 7] toy_default_world).1 = Raised e.
Proof.
  assert (Hr : reachable toy_default_world) by apply reach_init.
  split; [exact Hr|].
  exact (proj1 (no_method_returns_normally toy_default_world [3; 5] [0; 7] Hr)).
Defined.

(** Two fits of the toy instance with counting estimators: the caller's
    estimator has count 7, and both clones end with count 8. *)
Lemma refit_clones_again_witness :
  source_estimator toy_piped_world = Some toy_threaded
  /\ exists c1 c2,
       _estimator (self (@_fit _ toy_counting_methods [3; 5] [0; 7]
                           toy_piped_world).2) = Some c1
       /\ _estimator (self (@_fit _ toy_counting_methods [4] [7]
                              (@_fit _ toy_counting_methods [3; 5] [0; 7]
                                 toy_piped_world).2).2) = Some c2
       /\ c2 <> c1
       /\ estimators (@_fit _ toy_counting_methods [4] [7]
                        (@_fit _ toy_counting_methods [3; 5] [0; 7]
                           toy_piped_world).2).2 !! c2
          = Some (EstimatorObj toy_types (Some (Some 8%Z)) 8).
Proof.
  split; [reflexivity|].
  destruct (@refit_clones_again _ toy_counting_methods toy_piped_world
              [3; 5] [4] [0; 7] [7] toy_threaded eq_refl)
    as (_ & c1 & c2 & o1 & Hc1 & _ & Hc2 & Hne & _ & Hval).
  destruct (@fit_with_transformer _ toy_counting_methods toy_piped_world
              [3; 5] [0; 7] toy_threaded 0 eq_refl eq_refl) as (_ & Ht1 & _).
  rewrite Ht1 in Hval.
  exists c1, c2. split; [exact Hc1|]. split; [exact Hc2|].
  split; [exact Hne|exact Hval].
Defined.

Lemma fit_then_predict_witness :
  source_estimator toy_piped_world = Some toy_threaded
  /\ current_transformer toy_piped_world = Some 0
  /\ (_fit [3; 5] [0; 7] toy_piped_world).1 = Normal tt
  /\ (_predict [4] (_fit [3; 5] [0; 7] toy_piped_world).2).1 = Normal [0].
Proof.
  split; [reflexivity|]. split; [reflexivity|].
  destruct (fit_then_predict toy_piped_world [3; 5] [4] [0; 7] toy_threaded 0
              eq_refl eq_refl) as [Hfit Hpredict].
  split; [exact Hfit|]. exact (f_equal fst Hpredict).
Defined.

Lemma toy_piped_predictions (i : nat) :
  i < 2 ->
  exists p c, est_predict toy_threaded (transform 0 [3; 5]) !! i = Some p
              /\ _class_dictionary (base (self toy_piped_world)) !! p = Some c
              /\ c < n_classes_ (base (self toy_piped_world)).
Proof.
  intros Hi. exists 7, 1.
  destruct i as [|[|i]]; [| |lia]; (split; [reflexivity|]);
    (split; [reflexivity|cbn; lia]).
Qed.

Lemma predict_proba_one_hot_matrix_witness :
  current_estimator toy_piped_world = Some toy_threaded
  /\ exists dists,
       _predict_proba [3; 5] toy_piped_world = (Normal dists, toy_piped_world)
       /\ length dists = 2.
Proof.
  split; [reflexivity|].
  destruct (predict_proba_one_hot_matrix (H0 := toy_methods) toy_piped_world
              [3; 5] toy_threaded 0 eq_refl eq_refl eq_refl
              toy_piped_predictions)
    as (dists & Hrun & Hlen & _).
  exists dists. split; [exact Hrun|exact Hlen].
Defined.

Lemma predict_proba_unknown_label_witness :
  _class_dictionary (base (self toy_unknown_label_world)) !! 7 = None
  /\ _predict_proba [3; 5] toy_unknown_label_world
     = (Raised KeyError, toy_unknown_label_world).
Proof.
  split; [reflexivity|].
  apply (predict_proba_unknown_label (H0 := toy_methods)
           toy_unknown_label_world [3; 5]
           toy_threaded 0 0 7); try reflexivity.
  - cbn. lia.
  - intros j Hj. lia.
Defined.

Lemma predict_proba_class_index_too_large_witness :
  _class_dictionary (base (self toy_one_class_world)) !! 7 = Some 1
  /\ n_classes_ (base (self toy_one_class_world)) = 1
  /\ _predict_proba [3; 5] toy_one_class_world
     = (Raised IndexError, toy_one_class_world).
Proof.
  split; [reflexivity|]. split; [reflexivity|].
  apply (predict_proba_class_index_too_large (H0 := toy_methods)
           toy_one_class_world [3; 5]
           toy_threaded 0 0 7 1); try reflexivity.
  - cbn. lia.
  - intros j Hj. lia.
Defined.

Lemma predict_proba_too_few_predictions_witness :
  @est_predict _ toy_silent_methods toy_threaded [3; 5] = []
  /\ @_predict_proba _ toy_silent_methods [3; 5] toy_piped_world
     = (Raised IndexError, toy_piped_world).
Proof.
  split; [reflexivity|].
  apply (@predict_proba_too_few_predictions _ toy_silent_methods
           toy_piped_world [3; 5] toy_threaded 0); try reflexivity.
  - cbn. lia.
  - cbn. intros j Hj. lia.
Defined.

Lemma predict_proba_passes_through_witness :
  @_predict_proba _ toy_proba_methods [3; 5] toy_piped_world
  = (Normal [[(1 # 2)%Q; (1 # 2)%Q]; [(1 # 2)%Q; (1 # 2)%Q]], toy_piped_world).
Proof.
  exact (proj1 (@predict_proba_passes_through _ toy_proba_methods
                  toy_piped_world [3; 5] toy_threaded 0 _
                  (base (self toy_piped_world)) eq_refl eq_refl eq_refl)).
Defined.

Lemma predict_proba_no_instances_witness :
  shape0 ([] : list nat) = 0
  /\ _predict_proba [] toy_unknown_label_world
     = (Normal [], toy_unknown_label_world).
Proof.
  split; [reflexivity|].
  exact (predict_proba_no_instances (H0 := toy_methods)
           toy_unknown_label_world [] toy_threaded 0
           eq_refl eq_refl eq_refl eq_refl).
Defined.

End SummaryCasesWitnesses.

(* ===================================================================== *)
(** ** SummaryClassifier: probabilities of a fitted instance *)
(* ===================================================================== *)

Section SummaryFitted.
Import Summary.
Context `{Methods}.

(** An instance is fitted when [_fit] has returned: then
    [self._estimator] and [self._transformer] both refer to objects. *)
Lemma fit_returns_fitted (w : world) (X : XData) (y : list Label) :
  (_fit X y w).1 = Normal tt ->
  is_Some (current_estimator (_fit X y w).2)
  /\ is_Some (current_transformer (_fit X y w).2).
Proof.
  destruct (source_estimator w) as [src|] eqn:Hsrc;
    [|by rewrite fit_dangling].
  destruct (current_transformer w) as [t|] eqn:Ht.
  - intros _.
    destruct (fit_with_transformer w X y src t Hsrc Ht) as (_ & -> & ->).
    by split; eexists.
  - rewrite (fit_run w X y src Hsrc). unfold current_transformer in Ht.
    destruct (_transformer (self w)) as [tl|]; [|done]. cbn in Ht.
    by rewrite Ht.
Qed.

(** C2. On a fitted instance, one whose [self._estimator] and
    [self._transformer] refer to objects, and for every X:
    when the estimator has a callable [predict_proba], [_predict_proba]
    returns exactly its output on the transformed X; when it has none
    (and every plain prediction is a label of the class dictionary with an
    index below [n_classes_], as the labels of a fitted classifier are),
    [_predict_proba] returns one row per instance, each of [n_classes_]
    entries, with 1 at the class-dictionary index of that instance's
    prediction and 0 everywhere else. *)
Theorem predict_proba_of_fitted (w : world) (X : XData) (e : estimator_obj)
    (t : Transformer) :
  current_estimator w = Some e ->
  current_transformer w = Some t ->
  (forall predict_proba,
     est_predict_proba e = Some predict_proba ->
     _predict_proba X w = (Normal (predict_proba (transform t X)), w))
  /\ (est_predict_proba e = None ->
      (forall i, i < shape0 X ->
         exists p c, est_predict e (transform t X) !! i = Some p
                     /\ _class_dictionary (base (self w)) !! p = Some c
                     /\ c < n_classes_ (base (self w))) ->
      exists dists,
        _predict_proba X w = (Normal dists, w)
        /\ length dists = shape0 X
        /\ forall i, i < shape0 X ->
             exists p c row,
               est_predict e (transform t X) !! i = Some p
               /\ _class_dictionary (base (self w)) !! p = Some c
               /\ dists !! i = Some row
               /\ length row = n_classes_ (base (self w))
               /\ row !! c = Some 1%Q
               /\ forall j, j < n_classes_ (base (self w)) -> j <> c ->
                            row !! j = Some 0%Q).
Proof.
  intros He Ht. split.
  - intros predict_proba Hpp. by apply (predict_proba_callable w X e t).
  - intros Hpp Hpreds.
    eexists. split; [by apply (predict_proba_one_hot w X e t)|].
    split; [by rewrite length_map, length_seq|].
    intros i Hi. destruct (Hpreds i Hi) as (p & c & Hp & Hc & Hlt).
    exists p, c. eexists. split; [done|]. split; [done|]. split.
    + rewrite list_lookup_fmap, lookup_seq_lt by done. cbn. rewrite Hp. cbn.
      rewrite Hc. reflexivity.
    + cbn. by apply one_hot_entries.
Qed.

End SummaryFitted.

Section SummaryFittedWitness.
Import Summary SummaryCases.
#[local] Existing Instance toy_types.
#[local] Existing Instance toy_methods.

(** The toy instance after a [_fit] that returned (labels 0 and 7, the
    estimator then predicts 0): two instances give two rows [1, 0]. *)
Lemma predict_proba_of_fitted_witness :
  (_fit [3; 5] [0; 7] toy_piped_world).1 = Normal tt
  /\ exists dists,
       _predict_proba [4; 6] (_fit [3; 5] [0; 7] toy_piped_world).2
       = (Normal dists, (_fit [3; 5] [0; 7] toy_piped_world).2)
       /\ length dists = 2
       /\ forall i, i < 2 ->
            exists row, dists !! i = Some row
                        /\ length row = 2
                        /\ row !! 0 = Some 1%Q
                        /\ row !! 1 = Some 0%Q.
Proof.
  destruct (fit_with_transformer (H0 := toy_methods) toy_piped_world
              [3; 5] [0; 7] toy_threaded 0 eq_refl eq_refl)
    as (Hfit & Ht & He).
  split; [exact Hfit|].
  destruct (@predict_proba_of_fitted toy_types toy_methods
              (@_fit toy_types toy_methods [3; 5] [0; 7] toy_piped_world).2
              [4; 6] _ _ He Ht)
    as [_ Hhot].
  destruct (Hhot eq_refl) as (dists & Hrun & Hlen & Hrows).
  { intros i Hi. exists 0, 0.
    destruct i as [|[|i]]; [| |cbn in Hi; lia];
      (split; [reflexivity|]); (split; [reflexivity|change (0 < 2); lia]). }
  exists dists. split; [exact Hrun|]. split; [exact Hlen|].
  intros i Hi. destruct (Hrows i Hi) as (p & c & row & Hp & Hc & Hrow & Hl & H1 & H0').
  assert (Hp0 : p = 0).
  { destruct i as [|[|i]]; [| |lia]; vm_compute in Hp; congruence. }
  subst p.
  assert (Hc0 : c = 0) by (vm_compute in Hc; congruence).
  subst c.
  exists row. split; [exact Hrow|]. split; [exact Hl|].
  split; [exact H1|]. apply H0'; [change (1 < 2)|]; lia.
Defined.

End SummaryFittedWitness.
